(** * Sakura x Percolator crank bot: the executor, its retry engine and startup

    A shallow embedding of [src/crank-bot/index.ts].  The asynchronous code
    is single-threaded and awaits every call, so it is modelled as a
    sequential program in a state-and-exception monad.  The remote ledger is
    an abstract [LedgerClient]: every RPC call may answer or throw, and the
    answer may depend on everything that happened before.

    Conventions.
    - A JavaScript [number] holding a counter is a [Z]; [x++] is [js_incr].
    - A thrown value is an [Error] object carrying a string [message], which
      is what the ledger SDK raises.
    - [new Connection(url, "confirmed")] performs no I/O and succeeds for
      the configured URLs; a connection is identified with its endpoint.
    - Local SDK calls ([new Transaction], [tx.sign], [tx.compileMessage],
      [tx.serialize]) do not throw on the transaction built here.
    - Every awaited call settles: it answers or it throws.  A call that
      never settles is outside the model.
    - Every observable action appends an [Event] to the machine's [trace],
      oldest first. *)

From Stdlib Require Import ZArith List String Bool Lia.
Import ListNotations.
Local Open Scope string_scope.
Local Open Scope list_scope.
Local Open Scope Z_scope.

(** ** Configuration (lines 16-22) *)

Inductive Endpoint : Type :=
| PRIMARY_RPC_URL
| FALLBACK_RPC_URL.

(** [new Connection(url, "confirmed")]. *)
Definition Connection : Type := Endpoint.

Definition MAX_RETRIES : Z := 5.
Definition MAX_FEE_LAMPORTS : Z := 5000000.

(** ** JavaScript values used by the bot *)

(** Counters are IEEE doubles.  Adding one is exact up to [2^53]; at [2^53]
    the sum rounds back to [2^53].  [js_incr] is exact on [0 .. 2^53], which
    contains every value a counter started at zero can take. *)
Definition MAX_EXACT : Z := 9007199254740992.

Definition js_incr (n : Z) : Z := if n <? MAX_EXACT then n + 1 else n.

(** [hay.includes(needle)]. *)
Fixpoint includes (hay needle : string) : bool :=
  if String.prefix needle hay then true
  else match hay with
       | EmptyString => false
       | String _ rest => includes rest needle
       end.

Record JsError : Type := { message : string }.

(** The outcome of evaluating a statement or an awaited call. *)
Inductive Completion (A : Type) : Type :=
| Normal (a : A)
| Throw (e : JsError).
Arguments Normal {A} a.
Arguments Throw {A} e.

(** [TransactionError = {} | string]; the [err] field of a simulation
    response is [TransactionError | string | null]. *)
Inductive TransactionError : Type :=
| ErrName (name : string)
| ErrObject (json : string).

(** Truthiness of [simResult.value.err]: [null] and the empty string are
    falsy, every other value is truthy. *)
Definition truthy (err : option TransactionError) : bool :=
  match err with
  | None => false
  | Some (ErrName EmptyString) => false
  | Some _ => true
  end.

Record BlockhashWithExpiry : Type :=
  { blockhash : string; lastValidBlockHeight : Z }.

(** The keeper-crank transaction.  Instruction, accounts and fee payer are
    fixed (lines 111-124); what varies is the validity anchor and whether
    the wallet has signed. *)
Record Transaction : Type :=
  { recentBlockhash : string;
    txLastValidBlockHeight : Z;
    signedByCrankWallet : bool }.

(** ** Observable events *)

Inductive RpcCall : Type :=
| CGetSlot
| CGetLatestBlockhash
| CGetFeeForMessage
| CSimulateTransaction
| CSendRawTransaction.

Inductive LogLine : Type :=
| LConstructing (attempt : Z)                 (* line 108 *)
| LGasTooHigh (fee : Z)                       (* line 135 *)
| LSimulationFailed (err : option TransactionError) (* line 142 *)
| LSuccess (sig : string)                     (* line 149 *)
| LMetrics (successes failures lastSlot : Z)  (* line 56 *)
| LCrankFailed (msg : string)                 (* line 160 *)
| LPenaltyWarning                             (* line 166 *)
| LCriticalError                              (* line 177 *)
| LBackoff (delay : Z)                        (* line 181 *)
| LPrimaryFailed (msg : string).              (* line 65 *)

(** The two [setTimeout] waits of the executor. *)
Inductive Timer : Type :=
| PenaltyPause   (* line 167 *)
| Backoff.       (* line 182 *)

Inductive Event : Type :=
| ERpc (connection : Connection) (call : RpcCall)
| ESign
| ELog (line : LogLine)
| ESetTimeout (timer : Timer) (ms : Z).

(** ** The ledger *)

(** The capabilities of a [Connection] the bot uses.  [W] is the state of
    the outside world; each call returns its completion and the next world.
    [elapse] is the passing of time during a [setTimeout]. *)
Class LedgerClient (W : Type) : Type :=
  { getSlot : Connection -> W -> Completion Z * W;
    getLatestBlockhash : Connection -> W -> Completion BlockhashWithExpiry * W;
    getFeeForMessage : Connection -> Transaction -> W -> Completion (option Z) * W;
    simulateTransaction :
      Connection -> Transaction -> W -> Completion (option TransactionError) * W;
    sendRawTransaction : Connection -> Transaction -> W -> Completion string * W;
    elapse : Z -> W -> W }.

(** ** Machine state: the world, the metrics (lines 44-48) and the trace *)

Record Machine (W : Type) : Type :=
  { world : W;
    successCount : Z;
    failureCount : Z;
    lastSuccessSlot : Z;
    consecutiveBlockhashErrors : Z;
    trace : list Event }.
Arguments world {W} _.
Arguments successCount {W} _.
Arguments failureCount {W} _.
Arguments lastSuccessSlot {W} _.
Arguments consecutiveBlockhashErrors {W} _.
Arguments trace {W} _.
Arguments Build_Machine {W} _ _ _ _ _ _.

(** How a [try] block of the retry loop leaves the loop. *)
Inductive Exit : Type :=
| Break    (* lines 136, 145 *)
| Return.  (* line 157 *)

(** ** The monad *)

Definition M (W A : Type) : Type := Machine W -> Completion A * Machine W.

Definition ret {W A} (a : A) : M W A := fun m => (Normal a, m).

Definition bind {W A B} (c : M W A) (k : A -> M W B) : M W B :=
  fun m =>
    match c m with
    | (Normal a, m') => k a m'
    | (Throw e, m') => (Throw e, m')
    end.

(** [try { c } catch (error) { handler error }]. *)
Definition try_catch {W A} (c : M W A) (handler : JsError -> M W A) : M W A :=
  fun m =>
    match c m with
    | (Normal a, m') => (Normal a, m')
    | (Throw e, m') => handler e m'
    end.

Declare Scope crank_scope.
Delimit Scope crank_scope with crank.
Notation "x <- c ;; k" := (bind c (fun x => k))
  (at level 100, c at next level, right associativity) : crank_scope.
Notation "c ;;; k" := (bind c (fun _ => k))
  (at level 100, right associativity) : crank_scope.
Local Open Scope crank_scope.

Section Bot.

Context {W : Type} {ledger : LedgerClient W}.

Definition emit (e : Event) : M W unit :=
  fun m =>
    (Normal tt,
     Build_Machine (world m) (successCount m) (failureCount m)
       (lastSuccessSlot m) (consecutiveBlockhashErrors m) (trace m ++ [e])).

(** [log(msg)], line 51. *)
Definition log (l : LogLine) : M W unit := emit (ELog l).

(** [logMetrics()], line 55. *)
Definition logMetrics : M W unit :=
  fun m => log (LMetrics (successCount m) (failureCount m) (lastSuccessSlot m)) m.

(** An awaited RPC call on [connection]: the call is recorded, then the
    ledger answers or throws. *)
Definition rpc {A} (connection : Connection) (call : RpcCall)
    (f : W -> Completion A * W) : M W A :=
  emit (ERpc connection call) ;;;
  fun m =>
    let (r, w') := f (world m) in
    (r,
     Build_Machine w' (successCount m) (failureCount m)
       (lastSuccessSlot m) (consecutiveBlockhashErrors m) (trace m)).

(** [await new Promise(res => setTimeout(res, ms))]. *)
Definition sleep (timer : Timer) (ms : Z) : M W unit :=
  emit (ESetTimeout timer ms) ;;;
  fun m =>
    (Normal tt,
     Build_Machine (elapse ms (world m)) (successCount m) (failureCount m)
       (lastSuccessSlot m) (consecutiveBlockhashErrors m) (trace m)).

Definition incr_successCount : M W unit :=
  fun m =>
    (Normal tt,
     Build_Machine (world m) (js_incr (successCount m)) (failureCount m)
       (lastSuccessSlot m) (consecutiveBlockhashErrors m) (trace m)).

Definition incr_failureCount : M W unit :=
  fun m =>
    (Normal tt,
     Build_Machine (world m) (successCount m) (js_incr (failureCount m))
       (lastSuccessSlot m) (consecutiveBlockhashErrors m) (trace m)).

Definition set_lastSuccessSlot (slot : Z) : M W unit :=
  fun m =>
    (Normal tt,
     Build_Machine (world m) (successCount m) (failureCount m)
       slot (consecutiveBlockhashErrors m) (trace m)).

Definition set_consecutiveBlockhashErrors (n : Z) : M W unit :=
  fun m =>
    (Normal tt,
     Build_Machine (world m) (successCount m) (failureCount m)
       (lastSuccessSlot m) n (trace m)).

Definition get_consecutiveBlockhashErrors : M W Z :=
  fun m => (Normal (consecutiveBlockhashErrors m), m).

(** ** getConnectionWithFailover (lines 59-68) *)

Definition getConnectionWithFailover : M W Connection :=
  let primary := PRIMARY_RPC_URL in
  try_catch
    (rpc primary CGetSlot (getSlot primary) ;;;
     ret primary)
    (fun e =>
       log (LPrimaryFailed (message e)) ;;;
       ret FALLBACK_RPC_URL).

(** ** executeCrankInstruction (lines 102-190) *)

(** Lines 123-130: the transaction with its validity anchor, signed. *)
Definition buildTx (anchor : BlockhashWithExpiry) : Transaction :=
  {| recentBlockhash := blockhash anchor;
     txLastValidBlockHeight := lastValidBlockHeight anchor;
     signedByCrankWallet := false |}.

Definition sign (tx : Transaction) : M W Transaction :=
  emit ESign ;;;
  ret {| recentBlockhash := recentBlockhash tx;
         txLastValidBlockHeight := txLastValidBlockHeight tx;
         signedByCrankWallet := true |}.

(** Line 134: [feeMetadata.value !== null && feeMetadata.value > MAX_FEE_LAMPORTS]. *)
Definition exceedsCeiling (value : option Z) : bool :=
  match value with
  | Some v => v >? MAX_FEE_LAMPORTS
  | None => false
  end.

(** Lines 139-157: simulate, then send and record the success. *)
Definition simulateAndSubmit (connection : Connection) (tx : Transaction) : M W Exit :=
  err <- rpc connection CSimulateTransaction (simulateTransaction connection tx) ;;
  if truthy err then
    log (LSimulationFailed err) ;;;
    incr_failureCount ;;;
    logMetrics ;;;
    ret Break
  else
    sig <- rpc connection CSendRawTransaction (sendRawTransaction connection tx) ;;
    log (LSuccess sig) ;;;
    currentSlot <- rpc connection CGetSlot (getSlot connection) ;;
    incr_successCount ;;;
    set_lastSuccessSlot currentSlot ;;;
    set_consecutiveBlockhashErrors 0 ;;;
    logMetrics ;;;
    ret Return.

(** Lines 134-157: the gas cost guardrail on the answer [value] of the fee
    query, and what follows it. *)
Definition gasGuardrail (connection : Connection) (tx : Transaction)
    (value : option Z) : M W Exit :=
  if exceedsCeiling value then
    (* [value] is a number in this branch *)
    log (LGasTooHigh (match value with Some v => v | None => 0 end)) ;;;
    ret Break
  else
    simulateAndSubmit connection tx.

(** Lines 132-157. *)
Definition feeGuard (connection : Connection) (tx : Transaction) : M W Exit :=
  value <- rpc connection CGetFeeForMessage (getFeeForMessage connection tx) ;;
  gasGuardrail connection tx value.

(** Lines 107-157: the body of the [try]. *)
Definition tryBlock (connection : Connection) (attempts : Z) : M W Exit :=
  log (LConstructing (attempts + 1)) ;;;
  anchor <- rpc connection CGetLatestBlockhash (getLatestBlockhash connection) ;;
  tx <- sign (buildTx anchor) ;;
  feeGuard connection tx.

(** Line 163: the expiry class of a failure. *)
Definition isBlockhashExpiry (msg : string) : bool :=
  includes msg "BlockhashNotFound" || includes msg "block height exceeded".

(** Lines 162-172: the blockhash expiry guard. *)
Definition blockhashExpiryGuard (msg : string) : M W unit :=
  if isBlockhashExpiry msg then
    n <- get_consecutiveBlockhashErrors ;;
    set_consecutiveBlockhashErrors (js_incr n) ;;;
    n <- get_consecutiveBlockhashErrors ;;
    if n >=? 3 then
      log LPenaltyWarning ;;;
      sleep PenaltyPause 30000 ;;;
      set_consecutiveBlockhashErrors 0
    else ret tt
  else
    set_consecutiveBlockhashErrors 0.

(** Lines 159-188: the [catch] block.  It returns the loop variables
    [(connection, attempts, delay)] as it leaves them. *)
Definition catchBlock (error : JsError) (connection : Connection)
    (attempts delay : Z) : M W (Connection * Z * Z) :=
  log (LCrankFailed (message error)) ;;;
  blockhashExpiryGuard (message error) ;;;
  incr_failureCount ;;;
  let attempts := js_incr attempts in
  if attempts >=? MAX_RETRIES then
    log LCriticalError ;;;
    logMetrics ;;;
    ret (connection, attempts, delay)
  else
    log (LBackoff delay) ;;;
    sleep Backoff delay ;;;
    let delay := delay * 2 in
    connection <- getConnectionWithFailover ;;
    ret (connection, attempts, delay).

(** Lines 106-189: the [while] loop.  [fuel] bounds the number of times the
    loop condition is evaluated; [None] means the bound was too small. *)
Fixpoint whileLoop (fuel : nat) (connection : Connection) (attempts delay : Z)
    (m : Machine W) : option (Completion unit * Machine W) :=
  match fuel with
  | O => None
  | S fuel' =>
      if attempts <? MAX_RETRIES then
        match tryBlock connection attempts m with
        | (Normal _, m1) => Some (Normal tt, m1)
        | (Throw error, m1) =>
            match catchBlock error connection attempts delay m1 with
            | (Normal (connection', attempts', delay'), m2) =>
                whileLoop fuel' connection' attempts' delay' m2
            | (Throw e, m2) => Some (Throw e, m2)
            end
        end
      else Some (Normal tt, m)
  end.

(** The machine after the expiry guard has handled a history of failure
    messages, newest first (a reading aid, not part of the source). *)
Fixpoint afterFailures (history : list string) (m : Machine W) : Machine W :=
  match history with
  | [] => m
  | msg :: older => snd (blockhashExpiryGuard msg (afterFailures older m))
  end.

(** Lines 102-104: [attempts = 0], [delay = 1000].  Six evaluations of the
    loop condition are always enough (theorem [executeCrankInstruction_total]). *)
Definition executeCrankInstruction (connection : Connection) (m : Machine W)
    : option (Completion unit * Machine W) :=
  whileLoop 6 connection 0 1000 m.

End Bot.

(** ** Module start-up: the crank wallet (lines 29-42)

    What the JavaScript runtime and the SDK contribute is a [KeyRuntime]:
    [J] is the type of parsed JSON values and [K] the type of keypairs. *)

Class KeyRuntime (J K : Type) : Type :=
  { (** [JSON.parse(text)]; throws a [SyntaxError] on malformed text. *)
    JSON_parse : string -> Completion J;
    (** [secretKeyArray.length > 0]; reading [length] of [null] throws. *)
    length_gt_0 : J -> Completion bool;
    (** [Keypair.fromSecretKey(new Uint8Array(secretKeyArray))]; throws on
        bytes that are not a secret key. *)
    fromSecretKey : J -> Completion K;
    (** The result of [Keypair.generate()] at this start. *)
    generate : K;
    (** The text of the empty array parses to a value of length zero. *)
    parse_empty_array :
      exists arr, JSON_parse "[]" = Normal arr /\ length_gt_0 arr = Normal false }.

(** How evaluation of lines 29-42 ends: [process.exit(code)], or the wallet
    is set and the module goes on to start [loop()] (line 217); [warned]
    records the warning of line 37. *)
Inductive Startup (K : Type) : Type :=
| ProcessExit (code : Z)
| EntersLoop (crankWallet : K) (warned : bool).
Arguments ProcessExit {K} code.
Arguments EntersLoop {K} crankWallet warned.

Section StartupCode.

Context {J K : Type} {runtime : KeyRuntime J K}.

(** Line 32: [process.env.CRANK_KEYPAIR_JSON || "[]"].  An unset variable
    is [undefined]; [undefined] and the empty string are falsy. *)
Definition keypairText (CRANK_KEYPAIR_JSON : option string) : string :=
  match CRANK_KEYPAIR_JSON with
  | None => "[]"
  | Some EmptyString => "[]"
  | Some text => text
  end.

(** Lines 30-42: the initialisation of [crankWallet]. *)
Definition loadCrankWallet (CRANK_KEYPAIR_JSON : option string) : Startup K :=
  match JSON_parse (keypairText CRANK_KEYPAIR_JSON) with
  | Throw _ => ProcessExit 1
  | Normal secretKeyArray =>
      match length_gt_0 secretKeyArray with
      | Throw _ => ProcessExit 1
      | Normal true =>
          match fromSecretKey secretKeyArray with
          | Throw _ => ProcessExit 1
          | Normal keypair => EntersLoop keypair false
          end
      | Normal false => EntersLoop generate true
      end
  end.

(** The environment provides a usable key: its text parses to a non-empty
    value from which a keypair is made. *)
Definition providesUsableKey (CRANK_KEYPAIR_JSON : option string) : Prop :=
  exists secretKeyArray keypair,
    JSON_parse (keypairText CRANK_KEYPAIR_JSON) = Normal secretKeyArray /\
    length_gt_0 secretKeyArray = Normal true /\
    fromSecretKey secretKeyArray = Normal keypair.

(** The provided key material is rejected: parsing, reading the length or
    making the keypair throws. *)
Definition keyMaterialRejected (CRANK_KEYPAIR_JSON : option string) : Prop :=
  (exists e, JSON_parse (keypairText CRANK_KEYPAIR_JSON) = Throw e) \/
  (exists secretKeyArray e,
      JSON_parse (keypairText CRANK_KEYPAIR_JSON) = Normal secretKeyArray /\
      length_gt_0 secretKeyArray = Throw e) \/
  (exists secretKeyArray e,
      JSON_parse (keypairText CRANK_KEYPAIR_JSON) = Normal secretKeyArray /\
      length_gt_0 secretKeyArray = Normal true /\
      fromSecretKey secretKeyArray = Throw e).

(** No key material: the text parses to a value whose length is not
    positive. *)
Definition keyMaterialEmpty (CRANK_KEYPAIR_JSON : option string) : Prop :=
  exists secretKeyArray,
    JSON_parse (keypairText CRANK_KEYPAIR_JSON) = Normal secretKeyArray /\
    length_gt_0 secretKeyArray = Normal false.

End StartupCode.

(** ** Module start-up as a whole (lines 17-42 and 217)

    Before the wallet the module builds its three addresses (lines 25-27).
    [new PublicKey(text)] is the SDK's: it throws on a text that is not the
    base58 form of 32 bytes.  Nothing catches an exception thrown at the
    top level of the module: the runtime reports it and the process ends
    with exit code 1.  [P] is the type of addresses. *)

Class AddressRuntime (P : Type) : Type :=
  { newPublicKey : string -> Completion P }.

(** The variables of [process.env] that start-up reads; [None] is an unset
    variable. *)
Record ProcessEnv : Type :=
  { env_PERCOLATOR_PROGRAM_ID : option string;
    env_PERCOLATOR_SLAB : option string;
    env_ORACLE_ACCOUNT : option string;
    env_CRANK_KEYPAIR_JSON : option string }.

(** [value || fallback] on an environment variable: unset and empty are
    falsy. *)
Definition orDefault (value : option string) (fallback : string) : string :=
  match value with
  | None => fallback
  | Some EmptyString => fallback
  | Some text => text
  end.

(** How module start-up ends. *)
Inductive ModuleStart (P K : Type) : Type :=
| UncaughtException (e : JsError)
    (* thrown at lines 25-27; the process ends with exit code 1 *)
| Exits (code : Z)
    (* [process.exit(code)], line 41 *)
| CallsLoop (programId slab oracle : P) (crankWallet : K) (warned : bool).
    (* line 217 is reached and [loop()] is called *)
Arguments UncaughtException {P K} e.
Arguments Exits {P K} code.
Arguments CallsLoop {P K} programId slab oracle crankWallet warned.

(** Start-up is fatal when [loop()] is not called. *)
Definition fatal {P K} (start : ModuleStart P K) : bool :=
  match start with
  | CallsLoop _ _ _ _ _ => false
  | _ => true
  end.

(** The exit code of a fatal start-up. *)
Definition exitCode {P K} (start : ModuleStart P K) : option Z :=
  match start with
  | UncaughtException _ => Some 1
  | Exits code => Some code
  | CallsLoop _ _ _ _ _ => None
  end.

Section ModuleStartCode.

Context {P J K : Type} {addresses : AddressRuntime P} {runtime : KeyRuntime J K}.

(** The texts given to [new PublicKey] at lines 25, 26 and 27. *)
Definition programIdText (env : ProcessEnv) : string :=
  orDefault (env_PERCOLATOR_PROGRAM_ID env) "p3Rc0Lator111111111111111111111111111111111".

Definition slabText (env : ProcessEnv) : string :=
  orDefault (env_PERCOLATOR_SLAB env) "11111111111111111111111111111111".

Definition oracleText (env : ProcessEnv) : string :=
  orDefault (env_ORACLE_ACCOUNT env) "11111111111111111111111111111111".

(** Lines 25-42, then line 217. *)
Definition startModule (env : ProcessEnv) : ModuleStart P K :=
  match newPublicKey (programIdText env) with
  | Throw e => UncaughtException e
  | Normal programId =>
      match newPublicKey (slabText env) with
      | Throw e => UncaughtException e
      | Normal slab =>
          match newPublicKey (oracleText env) with
          | Throw e => UncaughtException e
          | Normal oracle =>
              match loadCrankWallet (env_CRANK_KEYPAIR_JSON env) with
              | ProcessExit code => Exits code
              | EntersLoop crankWallet warned =>
                  CallsLoop programId slab oracle crankWallet warned
              end
          end
      end
  end.

(** One of the three addresses is rejected. *)
Definition addressRejected (env : ProcessEnv) : Prop :=
  (exists e, newPublicKey (programIdText env) = Throw e) \/
  (exists e, newPublicKey (slabText env) = Throw e) \/
  (exists e, newPublicKey (oracleText env) = Throw e).

(** The three addresses are accepted. *)
Definition addressesAccepted (env : ProcessEnv) (programId slab oracle : P) : Prop :=
  newPublicKey (programIdText env) = Normal programId /\
  newPublicKey (slabText env) = Normal slab /\
  newPublicKey (oracleText env) = Normal oracle.

End ModuleStartCode.

(** ** A scripted ledger

    A world that is a finite script of replies, consumed one per RPC call,
    whatever the connection; time passing does not change it.  It gives the
    executable instances on which the examples below are run. *)

Inductive Reply : Type :=
| RSlot (slot : Z)
| RAnchor (anchor : BlockhashWithExpiry)
| RFee (value : option Z)
| RSimulation (err : option TransactionError)
| RSignature (sig : string)
| RThrow (msg : string).

Definition Script : Type := list Reply.

Definition scripted {A} (pick : Reply -> option A) (w : Script)
    : Completion A * Script :=
  match w with
  | [] => (Throw {| message := "fetch failed" |}, [])
  | RThrow msg :: w' => (Throw {| message := msg |}, w')
  | r :: w' =>
      match pick r with
      | Some a => (Normal a, w')
      | None => (Throw {| message := "unexpected reply" |}, w')
      end
  end.

#[global] Instance scriptedLedger : LedgerClient Script :=
  { getSlot := fun _ => scripted (fun r => match r with RSlot s => Some s | _ => None end);
    getLatestBlockhash :=
      fun _ => scripted (fun r => match r with RAnchor a => Some a | _ => None end);
    getFeeForMessage :=
      fun _ _ => scripted (fun r => match r with RFee v => Some v | _ => None end);
    simulateTransaction :=
      fun _ _ => scripted (fun r => match r with RSimulation e => Some e | _ => None end);
    sendRawTransaction :=
      fun _ _ => scripted (fun r => match r with RSignature s => Some s | _ => None end);
    elapse := fun _ w => w }.

(** The machine of a freshly started process (lines 45-48) in world [w]. *)
Definition freshMachine {W} (w : W) : Machine W :=
  Build_Machine w 0 0 0 0 [].

Definition anchor1 : BlockhashWithExpiry :=
  {| blockhash := "9sHcv6x"; lastValidBlockHeight := 1150 |}.

(** A first attempt whose submission is refused as expired, then a second
    attempt whose fee estimate is above the ceiling. *)
Definition feeSpikeAfterExpiry : Script :=
  [ RAnchor anchor1; RFee (Some 1000); RSimulation None; RThrow "BlockhashNotFound";
    RSlot 7;
    RAnchor anchor1; RFee (Some 6000000) ].

(** A first attempt whose submission fails, then a second attempt whose
    simulation reports an error. *)
Definition revertAfterSendFailure : Script :=
  [ RAnchor anchor1; RFee (Some 1000); RSimulation None; RThrow "fetch failed";
    RSlot 7;
    RAnchor anchor1; RFee (Some 1000);
    RSimulation (Some (ErrObject "{InstructionError:[0,{Custom:6001}]}")) ].

(** A first attempt that cannot fetch the validity anchor, then a second
    attempt whose fee estimate is above the ceiling. *)
Definition anchorFailureThenFeeVeto : Script :=
  [ RThrow "fetch failed"; RSlot 7; RAnchor anchor1; RFee (Some 6000000) ].

(** A first attempt that cannot fetch the validity anchor, then a second
    attempt whose simulation reports an error. *)
Definition anchorFailureThenRevert : Script :=
  [ RThrow "fetch failed"; RSlot 7; RAnchor anchor1; RFee (Some 1000);
    RSimulation (Some (ErrObject "{InstructionError:[0,{Custom:6001}]}")) ].

(** One attempt: the fee estimate is above the ceiling. *)
Definition feeAboveCeiling : Script :=
  [ RAnchor anchor1; RFee (Some 6000000) ].

(** One attempt: the simulation reports an error. *)
Definition simulationReverts : Script :=
  [ RAnchor anchor1; RFee (Some 1000); RSimulation (Some (ErrName "AccountInUse")) ].

(** One attempt: no fee estimate, clean simulation, accepted submission. *)
Definition noFeeEstimate : Script :=
  [ RAnchor anchor1; RFee None; RSimulation None; RSignature "5VERv8"; RSlot 1000 ].

(** Five attempts that all fail, the first three in the expiry class; the
    primary endpoint does not answer the probes. *)
Definition fiveFailures : Script :=
  [ RThrow "BlockhashNotFound"; RThrow "fetch failed";
    RThrow "block height exceeded"; RThrow "fetch failed";
    RThrow "Transaction simulation failed: BlockhashNotFound" ].

(** First invocation: an expiry-class failure, then a fee veto.  Second
    invocation: a failure of another class, then a fee veto. *)
Definition expiryThenVeto : Script :=
  [ RThrow "BlockhashNotFound"; RSlot 7; RAnchor anchor1; RFee (Some 6000000) ].

Definition otherThenVeto : Script :=
  [ RThrow "fetch failed"; RSlot 8; RAnchor anchor1; RFee (Some 6000000) ].

(** A runtime for the key material: JSON values are arrays of numbers,
    of which only the texts used below are parsed; a secret key has 64
    bytes. *)
Definition exampleParse (text : string) : Completion (list Z) :=
  if String.eqb text "[]" then Normal []
  else if String.eqb text "[1,2,3]" then Normal [1; 2; 3]
  else Throw {| message := "SyntaxError: Unexpected token" |}.

Definition exampleFromSecretKey (bytes : list Z) : Completion (list Z) :=
  if (List.length bytes =? 64)%nat then Normal bytes
  else Throw {| message := "bad secret key size" |}.

Definition exampleGenerated : list Z := List.repeat 7 64.

#[global] Instance exampleRuntime : KeyRuntime (list Z) (list Z) :=
  { JSON_parse := exampleParse;
    length_gt_0 := fun arr => Normal (0 <? List.length arr)%nat;
    fromSecretKey := exampleFromSecretKey;
    generate := exampleGenerated;
    parse_empty_array := ex_intro _ [] (conj eq_refl eq_refl) }.

(** A runtime for the addresses: the base58 reading of the SDK.  A text is
    accepted when all its characters are base58 digits and the bytes it
    stands for are 32: one zero byte for each leading [1], then the bytes
    of the number. *)
Definition base58Alphabet : string :=
  "123456789ABCDEFGHJKLMNPQRSTUVWXYZabcdefghijkmnopqrstuvwxyz".

Fixpoint indexIn (alphabet : string) (c : Ascii.ascii) : option Z :=
  match alphabet with
  | EmptyString => None
  | String d rest =>
      if Ascii.eqb c d then Some 0
      else option_map Z.succ (indexIn rest c)
  end.

Fixpoint base58Number (acc : Z) (text : string) : option Z :=
  match text with
  | EmptyString => Some acc
  | String c rest =>
      match indexIn base58Alphabet c with
      | Some digit => base58Number (acc * 58 + digit) rest
      | None => None
      end
  end.

Fixpoint leadingOnes (text : string) : Z :=
  match text with
  | String c rest => if String.eqb (String c EmptyString) "1" then 1 + leadingOnes rest else 0
  | EmptyString => 0
  end.

Definition byteLength (n : Z) : Z :=
  if n =? 0 then 0 else Z.log2 n / 8 + 1.

Definition examplePublicKey (text : string) : Completion string :=
  match base58Number 0 text with
  | None => Throw {| message := "Non-base58 character" |}
  | Some n =>
      if leadingOnes text + byteLength n =? 32 then Normal text
      else Throw {| message := "Invalid public key input" |}
  end.

#[global] Instance exampleAddresses : AddressRuntime string :=
  { newPublicKey := examplePublicKey }.

(** The address of the system program, which is also the default of
    [PERCOLATOR_SLAB] and [ORACLE_ACCOUNT]. *)
Definition systemProgram : string := "11111111111111111111111111111111".

(** Nothing is set. *)
Definition emptyEnv : ProcessEnv :=
  {| env_PERCOLATOR_PROGRAM_ID := None;
     env_PERCOLATOR_SLAB := None;
     env_ORACLE_ACCOUNT := None;
     env_CRANK_KEYPAIR_JSON := None |}.

(** Only the program id is set, to an address the SDK accepts. *)
Definition programIdOnly : ProcessEnv :=
  {| env_PERCOLATOR_PROGRAM_ID := Some systemProgram;
     env_PERCOLATOR_SLAB := None;
     env_ORACLE_ACCOUNT := None;
     env_CRANK_KEYPAIR_JSON := None |}.

(** ** Reading a trace *)

(** The waits of the given timer, in order. *)
Fixpoint waits (timer : Timer) (evs : list Event) : list Z :=
  match evs with
  | [] => []
  | ESetTimeout Backoff ms :: rest =>
      match timer with
      | Backoff => ms :: waits timer rest
      | PenaltyPause => waits timer rest
      end
  | ESetTimeout PenaltyPause ms :: rest =>
      match timer with
      | PenaltyPause => ms :: waits timer rest
      | Backoff => waits timer rest
      end
  | _ :: rest => waits timer rest
  end.

Definition backoffs : list Event -> list Z := waits Backoff.
Definition penalties : list Event -> list Z := waits PenaltyPause.

Definition sameCall (a b : RpcCall) : bool :=
  match a, b with
  | CGetSlot, CGetSlot
  | CGetLatestBlockhash, CGetLatestBlockhash
  | CGetFeeForMessage, CGetFeeForMessage
  | CSimulateTransaction, CSimulateTransaction
  | CSendRawTransaction, CSendRawTransaction => true
  | _, _ => false
  end.

(** How many times the given RPC method was called, on any connection. *)
Fixpoint calls (call : RpcCall) (evs : list Event) : nat :=
  match evs with
  | [] => O
  | ERpc _ c :: rest =>
      if sameCall call c then S (calls call rest) else calls call rest
  | _ :: rest => calls call rest
  end.

(** How many times [sendRawTransaction] was called. *)
Definition sends : list Event -> nat := calls CSendRawTransaction.

(** How many attempts were started (line 108). *)
Fixpoint attemptsStarted (evs : list Event) : nat :=
  match evs with
  | [] => O
  | ELog (LConstructing _) :: rest => S (attemptsStarted rest)
  | _ :: rest => attemptsStarted rest
  end.

(** How many failures the [catch] block handled (line 160). *)
Fixpoint caughtFailures (evs : list Event) : nat :=
  match evs with
  | [] => O
  | ELog (LCrankFailed _) :: rest => S (caughtFailures rest)
  | _ :: rest => caughtFailures rest
  end.

(** The messages of the failures the [catch] block handled, oldest first. *)
Fixpoint caughtMessages (evs : list Event) : list string :=
  match evs with
  | [] => []
  | ELog (LCrankFailed msg) :: rest => msg :: caughtMessages rest
  | _ :: rest => caughtMessages rest
  end.

(** The events after which [consecutiveBlockhashErrors] is zero by an
    assignment: a success (line 154), a penalty pause (line 168), a caught
    failure outside the expiry class (line 171). *)
Definition isSuccess (e : Event) : bool :=
  match e with ELog (LSuccess _) => true | _ => false end.

Definition isPenaltyPause (e : Event) : bool :=
  match e with ESetTimeout PenaltyPause _ => true | _ => false end.

Definition isOtherFailure (e : Event) : bool :=
  match e with
  | ELog (LCrankFailed msg) => negb (isBlockhashExpiry msg)
  | _ => false
  end.

(** The steps of an attempt, as its events show them. *)
Inductive Step : Type :=
| BUILD       (* the validity anchor is fetched, line 126 *)
| SIGN        (* [tx.sign(crankWallet)], line 130 *)
| FEE_CHECK   (* line 133 *)
| SIMULATE    (* line 140 *)
| SUBMIT.     (* [sendRawTransaction], line 148 *)

Definition stepOf (e : Event) : option Step :=
  match e with
  | ERpc _ CGetLatestBlockhash => Some BUILD
  | ESign => Some SIGN
  | ERpc _ CGetFeeForMessage => Some FEE_CHECK
  | ERpc _ CSimulateTransaction => Some SIMULATE
  | ERpc _ CSendRawTransaction => Some SUBMIT
  | _ => None
  end.

Fixpoint steps (evs : list Event) : list Step :=
  match evs with
  | [] => []
  | e :: rest =>
      match stepOf e with
      | Some s => s :: steps rest
      | None => steps rest
      end
  end.

(** The transaction of an attempt after line 130. *)
Definition signedTx (anchor : BlockhashWithExpiry) : Transaction :=
  {| recentBlockhash := blockhash anchor;
     txLastValidBlockHeight := lastValidBlockHeight anchor;
     signedByCrankWallet := true |}.

(** An event that assigns zero to [consecutiveBlockhashErrors]. *)
Definition isReset (e : Event) : bool :=
  isSuccess e || isPenaltyPause e || isOtherFailure e.

(** The number of expiry-class failures at the end of a history of failure
    messages, newest first. *)
Fixpoint trailingExpiry (history : list string) : nat :=
  match history with
  | [] => O
  | msg :: older => if isBlockhashExpiry msg then S (trailingExpiry older) else O
  end.

(** The backoff sequence: [n] delays starting at [d], each twice the last. *)
Fixpoint doubling (d : Z) (n : nat) : list Z :=
  match n with
  | O => []
  | S n' => d :: doubling (d * 2) n'
  end.

(** How many attempts the simulation aborted (line 142). *)
Fixpoint simulationAborts (evs : list Event) : nat :=
  match evs with
  | [] => O
  | ELog (LSimulationFailed _) :: rest => S (simulationAborts rest)
  | _ :: rest => simulationAborts rest
  end.

(** The sum of all the waits, in milliseconds. *)
Definition totalWait (evs : list Event) : Z :=
  fold_right Z.add 0 (backoffs evs) + fold_right Z.add 0 (penalties evs).

(** ** checkSlabFreshness and loop (lines 70-100 and 192-215)

    The scheduler has log lines and calls of its own.  They are recorded in
    a [journal] kept beside the executor's machine; the order of the
    journal's entries is the order of the program, as the order of the
    machine's trace is.  Numbers received from the ledger are integers below
    [2^53], on which [currentSlot - 5] is exact. *)

Inductive Account : Type :=
| ORACLE_ACCOUNT
| PERCOLATOR_SLAB.

(** What [getAccountInfo] resolves to when the account exists. *)
Record AccountInfo : Type := { data : list Z }.

(** What the scheduler needs beyond the [LedgerClient]. *)
Class SlabReader (W : Type) : Type :=
  { (** [connection.getAccountInfo(address)]; [None] is [null]. *)
    getAccountInfo : Connection -> Account -> W -> Completion (option AccountInfo) * W;
    (** [Math.random() < 0.2] *)
    randomBelowFifth : W -> bool * W;
    (** Which of the rejections of a [Promise.all] comes first: a position
        among the rejected calls, taken modulo their number. *)
    firstToReject : W -> nat }.

Inductive LoopLine : Type :=
| LStarting                               (* line 193 *)
| LPrimaryRpc                             (* line 194 *)
| LFreshnessError (msg : string)          (* line 97 *)
| LStale (currentSlot oracleSlot : Z)     (* line 203 *)
| LLoopError (msg : string).              (* line 209 *)

Inductive LoopEvent : Type :=
| VLog (line : LoopLine)
| VGetSlot (connection : Connection)                          (* line 73 *)
| VGetAccountInfo (connection : Connection) (account : Account) (* lines 74-75 *)
| VRandom                                                     (* line 92 *)
| VInterval (ms : Z).                                         (* line 213 *)

(** The whole bot: the executor's machine and the scheduler's journal. *)
Record Bot (W : Type) : Type :=
  { machine : Machine W;
    journal : list LoopEvent }.
Arguments machine {W} _.
Arguments journal {W} _.
Arguments Build_Bot {W} _ _.

(** The return value of [checkSlabFreshness]. *)
Record Verdict : Type :=
  { stale : bool;
    currentSlot : Z;
    oracleSlot : Z }.

(** The errors of the rejected ones among three settled calls, in the order
    of the calls. *)
Definition rejections {A B C} (c1 : Completion A) (c2 : Completion B)
    (c3 : Completion C) : list JsError :=
  (match c1 with Throw e => [e] | Normal _ => [] end) ++
  (match c2 with Throw e => [e] | Normal _ => [] end) ++
  (match c3 with Throw e => [e] | Normal _ => [] end).

(** [await Promise.all([p1, p2, p3])]: the three values when all three
    calls answer, otherwise the error of the call that rejects first. *)
Definition promiseAll3 {A B C} (first : nat) (c1 : Completion A)
    (c2 : Completion B) (c3 : Completion C) : Completion (A * B * C) :=
  match c1, c2, c3 with
  | Normal a, Normal b, Normal c => Normal (a, b, c)
  | _, _, _ =>
      match rejections c1 c2 c3 with
      | [] => Throw {| message := "" |}
      | e :: rest => Throw (nth (first mod List.length (e :: rest)) (e :: rest) e)
      end
  end.

Section Scheduler.

Context {W : Type} {ledger : LedgerClient W} {reader : SlabReader W}.

(** Line 19: [parseInt(process.env.CRANK_CHECK_INTERVAL_MS || "5000", 10)]. *)
Variable CRANK_CHECK_INTERVAL_MS : Z.

Definition withWorld (w : W) (m : Machine W) : Machine W :=
  Build_Machine w (successCount m) (failureCount m) (lastSuccessSlot m)
    (consecutiveBlockhashErrors m) (trace m).

(** An entry of the journal. *)
Definition note (e : LoopEvent) (b : Bot W) : Bot W :=
  Build_Bot (machine b) (journal b ++ [e]).

(** A call of the scheduler to the outside world: it is recorded, then the
    world answers. *)
Definition ask {A} (e : LoopEvent) (f : W -> A * W) (b : Bot W) : A * Bot W :=
  let (a, w') := f (world (machine b)) in
  (a, Build_Bot (withWorld w' (machine b)) (journal b ++ [e])).

(** Lines 72-94: the body of the [try] of [checkSlabFreshness].  The three
    calls are started in the order of the array; all three are started
    whatever the others answer. *)
Definition readSlab (connection : Connection) (b : Bot W) : Completion Verdict * Bot W :=
  let (c1, b1) := ask (VGetSlot connection) (getSlot connection) b in
  let (c2, b2) :=
    ask (VGetAccountInfo connection ORACLE_ACCOUNT)
      (getAccountInfo connection ORACLE_ACCOUNT) b1 in
  let (c3, b3) :=
    ask (VGetAccountInfo connection PERCOLATOR_SLAB)
      (getAccountInfo connection PERCOLATOR_SLAB) b2 in
  match promiseAll3 (firstToReject (world (machine b3))) c1 c2 c3 with
  | Throw e => (Throw e, b3)
  | Normal (slot, oracleInfo, slabInfo) =>
      match oracleInfo, slabInfo with
      | Some _, Some _ =>
          let (isStale, b4) := ask VRandom randomBelowFifth b3 in
          (Normal {| stale := isStale; currentSlot := slot; oracleSlot := slot - 5 |}, b4)
      | _, _ =>
          (Throw {| message := "Could not fetch required accounts." |}, b3)
      end
  end.

(** Lines 70-100. *)
Definition checkSlabFreshness (connection : Connection) (b : Bot W)
    : Completion Verdict * Bot W :=
  match readSlab connection b with
  | (Normal verdict, b') => (Normal verdict, b')
  | (Throw error, b') =>
      (Normal {| stale := true; currentSlot := 0; oracleSlot := 0 |},
       note (VLog (LFreshnessError (message error))) b')
  end.

(** Line 213: [await new Promise(res => setTimeout(res, CRANK_CHECK_INTERVAL_MS))]. *)
Definition sleepInterval (b : Bot W) : Bot W :=
  Build_Bot
    (withWorld (elapse CRANK_CHECK_INTERVAL_MS (world (machine b))) (machine b))
    (journal b ++ [VInterval CRANK_CHECK_INTERVAL_MS]).

(** Lines 200-207: the body of the [try] of the loop.  [None] is the
    executor's bound on loop evaluations, which is never reached. *)
Definition pollAndCrank (connection : Connection) (b : Bot W)
    : option (Completion unit * Bot W) :=
  match checkSlabFreshness connection b with
  | (Throw e, b1) => Some (Throw e, b1)
  | (Normal verdict, b1) =>
      if stale verdict then
        let b2 := note (VLog (LStale (currentSlot verdict) (oracleSlot verdict))) b1 in
        match executeCrankInstruction connection (machine b2) with
        | None => None
        | Some (r, m') => Some (r, Build_Bot m' (journal b2))
        end
      else Some (Normal tt, b1)
  end.

(** Lines 199-213: one turn of the [while (true)] loop.  It returns the
    connection the next turn will use. *)
Definition loopIteration (connection : Connection) (b : Bot W)
    : option (Completion Connection * Bot W) :=
  match pollAndCrank connection b with
  | None => None
  | Some (Normal _, b1) => Some (Normal connection, sleepInterval b1)
  | Some (Throw e, b1) =>
      let b2 := note (VLog (LLoopError (message e))) b1 in
      match getConnectionWithFailover (machine b2) with
      | (Normal connection', m') =>
          Some (Normal connection', sleepInterval (Build_Bot m' (journal b2)))
      | (Throw e', m') => Some (Throw e', Build_Bot m' (journal b2))
      end
  end.

(** The first [n] turns of the loop. *)
Fixpoint iterations (n : nat) (connection : Connection) (b : Bot W)
    : option (Completion Connection * Bot W) :=
  match n with
  | O => Some (Normal connection, b)
  | S n' =>
      match loopIteration connection b with
      | Some (Normal connection', b') => iterations n' connection' b'
      | stopped => stopped
      end
  end.

(** Lines 192-215: [loop()] up to the end of its [n]-th turn.  The loop
    itself has no end; an exception that leaves it is fatal (line 217). *)
Definition loop (n : nat) (b : Bot W) : option (Completion Connection * Bot W) :=
  let b1 := note (VLog LStarting) b in
  let b2 := note (VLog LPrimaryRpc) b1 in
  match getConnectionWithFailover (machine b2) with
  | (Normal connection, m') => iterations n connection (Build_Bot m' (journal b2))
  | (Throw e, m') => Some (Throw e, Build_Bot m' (journal b2))
  end.

End Scheduler.

(** Reading a journal. *)
Fixpoint intervals (entries : list LoopEvent) : nat :=
  match entries with
  | [] => O
  | VInterval _ :: rest => S (intervals rest)
  | _ :: rest => intervals rest
  end.

(** How many times the slab was announced stale (line 203), which is how
    many times the executor was invoked. *)
Fixpoint staleAnnouncements (entries : list LoopEvent) : nat :=
  match entries with
  | [] => O
  | VLog (LStale _ _) :: rest => S (staleAnnouncements rest)
  | _ :: rest => staleAnnouncements rest
  end.

Fixpoint loopErrors (entries : list LoopEvent) : nat :=
  match entries with
  | [] => O
  | VLog (LLoopError _) :: rest => S (loopErrors rest)
  | _ :: rest => loopErrors rest
  end.

(** A world for the scheduler's examples: a script for the ledger, answers
    for the account reads, and draws for [Math.random() < 0.2]. *)
Record LoopScript : Type :=
  { ledgerScript : Script;
    accountAnswers : list (Completion (option AccountInfo));
    draws : list bool }.

Definition onLedger {A} (f : Script -> Completion A * Script) (w : LoopScript)
    : Completion A * LoopScript :=
  let (r, s') := f (ledgerScript w) in
  (r, {| ledgerScript := s'; accountAnswers := accountAnswers w; draws := draws w |}).

#[global] Instance loopLedger : LedgerClient LoopScript :=
  { getSlot := fun c => onLedger (getSlot c);
    getLatestBlockhash := fun c => onLedger (getLatestBlockhash c);
    getFeeForMessage := fun c tx => onLedger (getFeeForMessage c tx);
    simulateTransaction := fun c tx => onLedger (simulateTransaction c tx);
    sendRawTransaction := fun c tx => onLedger (sendRawTransaction c tx);
    elapse := fun _ w => w }.

#[global] Instance loopReader : SlabReader LoopScript :=
  { getAccountInfo := fun _ _ w =>
      match accountAnswers w with
      | [] => (Throw {| message := "fetch failed" |}, w)
      | r :: rest =>
          (r, {| ledgerScript := ledgerScript w; accountAnswers := rest;
                 draws := draws w |})
      end;
    randomBelowFifth := fun w =>
      match draws w with
      | [] => (false, w)
      | d :: rest =>
          (d, {| ledgerScript := ledgerScript w;
                 accountAnswers := accountAnswers w; draws := rest |})
      end;
    firstToReject := fun _ => O }.

Definition freshBot {W} (w : W) : Bot W := Build_Bot (freshMachine w) [].

(** ** A ledger that remembers what it was sent

    The trace says which calls were made, not with which transaction.  To
    state what a transaction carries when it reaches an endpoint, any
    ledger is paired with a record of what [getLatestBlockhash] answered
    and of the transactions the endpoints received, oldest first, each with
    whether the call answered or threw. *)

Inductive Observation : Type :=
| OAnchor (answer : option BlockhashWithExpiry)
    (* [getLatestBlockhash] answered an anchor, or threw *)
| OReceived (call : RpcCall) (tx : Transaction) (answered : bool).
    (* [tx] was the argument of [call] *)

Definition Recorded (W : Type) : Type := (W * list Observation)%type.

Definition answers {A} (r : Completion A) : bool :=
  match r with
  | Normal _ => true
  | Throw _ => false
  end.

(** The ledger [ledger], recording.  Its answers are those of [ledger]. *)
Definition recordingLedger {W : Type} (ledger : LedgerClient W)
    : LedgerClient (Recorded W) :=
  {| getSlot := fun connection w =>
       let (r, w') := getSlot connection (fst w) in (r, (w', snd w));
     getLatestBlockhash := fun connection w =>
       let (r, w') := getLatestBlockhash connection (fst w) in
       (r, (w', snd w ++
                [OAnchor (match r with
                          | Normal anchor => Some anchor
                          | Throw _ => None
                          end)]));
     getFeeForMessage := fun connection tx w =>
       let (r, w') := getFeeForMessage connection tx (fst w) in
       (r, (w', snd w ++ [OReceived CGetFeeForMessage tx (answers r)]));
     simulateTransaction := fun connection tx w =>
       let (r, w') := simulateTransaction connection tx (fst w) in
       (r, (w', snd w ++ [OReceived CSimulateTransaction tx (answers r)]));
     sendRawTransaction := fun connection tx w =>
       let (r, w') := sendRawTransaction connection tx (fst w) in
       (r, (w', snd w ++ [OReceived CSendRawTransaction tx (answers r)]));
     elapse := fun ms w => (elapse ms (fst w), snd w) |}.

(** The machine [m] on the recording ledger, with [seen] recorded so far. *)
Definition recording {W : Type} (seen : list Observation) (m : Machine W)
    : Machine (Recorded W) :=
  Build_Machine (world m, seen) (successCount m) (failureCount m)
    (lastSuccessSlot m) (consecutiveBlockhashErrors m) (trace m).

(** [tx] is signed and carries the blockhash and the last valid block
    height of [anchor]. *)
Definition carries (anchor : BlockhashWithExpiry) (tx : Transaction) : bool :=
  String.eqb (recentBlockhash tx) (blockhash anchor) &&
  (txLastValidBlockHeight tx =? lastValidBlockHeight anchor) &&
  signedByCrankWallet tx.

(** [anchorsFresh current seen]: every transaction received carries the
    anchor answered by the latest [getLatestBlockhash] before it, and an
    anchor is at hand only from the fetch that answered it up to the first
    call that throws or the submission: no transaction is received after a
    fetch that threw, after a call that threw or after a submission, until
    the next fetch.  [current] is the anchor at hand before [seen]. *)
Fixpoint anchorsFresh (current : option BlockhashWithExpiry)
    (seen : list Observation) : bool :=
  match seen with
  | [] => true
  | OAnchor answer :: rest => anchorsFresh answer rest
  | OReceived call tx answered :: rest =>
      match current with
      | None => false
      | Some anchor =>
          carries anchor tx &&
          anchorsFresh
            (match call with
             | CSendRawTransaction => None
             | _ => if answered then current else None
             end)
            rest
      end
  end.

(** The number of [getLatestBlockhash] calls recorded. *)
Fixpoint fetches (seen : list Observation) : nat :=
  match seen with
  | [] => O
  | OAnchor _ :: rest => S (fetches rest)
  | OReceived _ _ _ :: rest => fetches rest
  end.

(** The transactions received by [call], in order. *)
Fixpoint received (call : RpcCall) (seen : list Observation) : list Transaction :=
  match seen with
  | [] => []
  | OAnchor _ :: rest => received call rest
  | OReceived call' tx _ :: rest =>
      if sameCall call call' then tx :: received call rest
      else received call rest
  end.

(** ** Basic facts *)

Lemma waits_app timer evs1 evs2 :
  waits timer (evs1 ++ evs2) = waits timer evs1 ++ waits timer evs2.
Proof.
  induction evs1 as [|e evs1 IH]; simpl; [reflexivity|].
  destruct e as [ | | |t ms]; try exact IH.
  destruct t, timer; simpl; rewrite ?IH; reflexivity.
Qed.

Lemma backoffs_app evs1 evs2 :
  backoffs (evs1 ++ evs2) = backoffs evs1 ++ backoffs evs2.
Proof. apply waits_app. Qed.

Lemma penalties_app evs1 evs2 :
  penalties (evs1 ++ evs2) = penalties evs1 ++ penalties evs2.
Proof. apply waits_app. Qed.

Lemma calls_app call evs1 evs2 :
  calls call (evs1 ++ evs2) = (calls call evs1 + calls call evs2)%nat.
Proof.
  induction evs1 as [|e evs1 IH]; simpl; [reflexivity|].
  destruct e as [c c'| | |]; try exact IH.
  destruct (sameCall call c'); simpl; rewrite IH; reflexivity.
Qed.

Lemma attemptsStarted_app evs1 evs2 :
  attemptsStarted (evs1 ++ evs2) = (attemptsStarted evs1 + attemptsStarted evs2)%nat.
Proof.
  induction evs1 as [|e evs1 IH]; simpl; [reflexivity|].
  destruct e as [ | |l|]; try exact IH.
  destruct l; simpl; rewrite ?IH; reflexivity.
Qed.

Lemma caughtFailures_app evs1 evs2 :
  caughtFailures (evs1 ++ evs2) = (caughtFailures evs1 + caughtFailures evs2)%nat.
Proof.
  induction evs1 as [|e evs1 IH]; simpl; [reflexivity|].
  destruct e as [ | |l|]; try exact IH.
  destruct l; simpl; rewrite ?IH; reflexivity.
Qed.

Lemma caughtMessages_app evs1 evs2 :
  caughtMessages (evs1 ++ evs2) = caughtMessages evs1 ++ caughtMessages evs2.
Proof.
  induction evs1 as [|e evs1 IH]; simpl; [reflexivity|].
  destruct e as [ | |l|]; try exact IH.
  destruct l; simpl; rewrite ?IH; reflexivity.
Qed.

Lemma js_incr_exact n : n < MAX_EXACT -> js_incr n = n + 1.
Proof.
  intros H. unfold js_incr.
  destruct (Z.ltb_spec n MAX_EXACT); [reflexivity | lia].
Qed.

Lemma doubling_length d n : List.length (doubling d n) = n.
Proof. revert d. induction n as [|n IH]; intros d; simpl; [|rewrite IH]; reflexivity. Qed.

Lemma doubling_nth n : forall d k x,
  nth_error (doubling d n) k = Some x -> x = d * 2 ^ Z.of_nat k.
Proof.
  induction n as [|n IH]; intros d k x H.
  - destruct k; discriminate H.
  - destruct k as [|k]; simpl in H.
    + injection H as <-. simpl. lia.
    + apply IH in H. subst x.
      rewrite Nat2Z.inj_succ, Z.pow_succ_r by lia. ring.
Qed.

(** ** Running the pieces *)

Ltac unfold_bot :=
  unfold tryBlock, feeGuard, gasGuardrail, simulateAndSubmit, catchBlock,
    blockhashExpiryGuard, getConnectionWithFailover, sign, buildTx, rpc, sleep,
    logMetrics, log, emit, incr_successCount, incr_failureCount,
    set_lastSuccessSlot, set_consecutiveBlockhashErrors,
    get_consecutiveBlockhashErrors, try_catch, bind, ret in *.

(** Case analysis on the next undetermined answer or test of the goal. *)
Ltac case_step :=
  match goal with
  | |- context [getLatestBlockhash ?c ?w] =>
      destruct (getLatestBlockhash c w) as [[?|?] ?] eqn:?
  | |- context [getFeeForMessage ?c ?t ?w] =>
      destruct (getFeeForMessage c t w) as [[?|?] ?] eqn:?
  | |- context [simulateTransaction ?c ?t ?w] =>
      destruct (simulateTransaction c t w) as [[?|?] ?] eqn:?
  | |- context [sendRawTransaction ?c ?t ?w] =>
      destruct (sendRawTransaction c t w) as [[?|?] ?] eqn:?
  | |- context [getSlot ?c ?w] =>
      destruct (getSlot c w) as [[?|?] ?] eqn:?
  | |- context [if ?b then _ else _] => destruct b eqn:?
  end; simpl.

Ltac tidy_trace := simpl; rewrite <- ?app_assoc; simpl.

Section BotFacts.

Context {W : Type} {ledger : LedgerClient W}.

(** What every run of the [try] block has in common: one attempt started,
    no timer, no caught failure.  A run that throws leaves the four
    counters alone; a run that completes leaves
    [consecutiveBlockhashErrors] alone unless it logged a success. *)
Lemma tryBlock_run connection attempts (m : Machine W) r m' :
  tryBlock connection attempts m = (r, m') ->
  exists evs,
    trace m' = trace m ++ evs /\
    backoffs evs = [] /\ penalties evs = [] /\
    caughtFailures evs = O /\ attemptsStarted evs = 1%nat /\
    existsb isPenaltyPause evs = false /\
    existsb isOtherFailure evs = false /\
    match r with
    | Throw _ =>
        successCount m' = successCount m /\
        failureCount m' = failureCount m /\
        lastSuccessSlot m' = lastSuccessSlot m /\
        consecutiveBlockhashErrors m' = consecutiveBlockhashErrors m
    | Normal _ =>
        consecutiveBlockhashErrors m' = consecutiveBlockhashErrors m \/
        (consecutiveBlockhashErrors m' = 0 /\ existsb isSuccess evs = true)
    end.
Proof.
  unfold_bot. simpl.
  repeat case_step; intros H; inversion H; subst; clear H;
    tidy_trace; eexists; (split; [reflexivity|]); simpl;
    repeat split; auto.
Qed.

(** The critical error is not logged inside the [try] block. *)
Lemma tryBlock_no_critical connection attempts (m : Machine W) r m' evs :
  tryBlock connection attempts m = (r, m') ->
  trace m' = trace m ++ evs ->
  In (ELog LCriticalError) evs -> False.
Proof.
  unfold_bot. simpl.
  repeat case_step; intros H; inversion H; subst; clear H; simpl;
    rewrite <- ?app_assoc; intros Htr; apply app_inv_head in Htr; subst evs;
    simpl; intuition discriminate.
Qed.

Lemma tryBlock_messages connection attempts (m : Machine W) r m' evs :
  tryBlock connection attempts m = (r, m') ->
  trace m' = trace m ++ evs ->
  caughtMessages evs = [].
Proof.
  unfold_bot. simpl.
  repeat case_step; intros H; inversion H; subst; clear H; simpl;
    rewrite <- ?app_assoc; intros Htr; apply app_inv_head in Htr; subst evs;
    reflexivity.
Qed.

Lemma catchBlock_messages e connection attempts delay (m : Machine W) r m' evs :
  catchBlock e connection attempts delay m = (r, m') ->
  trace m' = trace m ++ evs ->
  caughtMessages evs = [message e].
Proof.
  unfold_bot. simpl.
  repeat case_step; intros H; inversion H; subst; clear H; simpl;
    rewrite <- ?app_assoc; intros Htr; apply app_inv_head in Htr; subst evs;
    reflexivity.
Qed.

(** The [catch] block never throws.  It counts one failure, increments
    [attempts], and either gives up (budget exhausted: critical log, no
    wait) or waits [delay], doubles it and re-acquires a connection. *)
Lemma catchBlock_spec e connection attempts delay (m : Machine W) :
  exists connection' m',
    catchBlock e connection attempts delay m =
      (Normal (connection', js_incr attempts,
               if js_incr attempts >=? MAX_RETRIES then delay else delay * 2), m') /\
    successCount m' = successCount m /\
    failureCount m' = js_incr (failureCount m) /\
    lastSuccessSlot m' = lastSuccessSlot m /\
    consecutiveBlockhashErrors m' =
      (if isBlockhashExpiry (message e) then
         if js_incr (consecutiveBlockhashErrors m) >=? 3 then 0
         else js_incr (consecutiveBlockhashErrors m)
       else 0) /\
    exists evs,
      trace m' = trace m ++ evs /\
      caughtFailures evs = 1%nat /\
      attemptsStarted evs = O /\
      sends evs = O /\
      existsb isSuccess evs = false /\
      existsb isOtherFailure evs = negb (isBlockhashExpiry (message e)) /\
      penalties evs =
        (if isBlockhashExpiry (message e) && (js_incr (consecutiveBlockhashErrors m) >=? 3)
         then [30000] else []) /\
      existsb isPenaltyPause evs =
        isBlockhashExpiry (message e) && (js_incr (consecutiveBlockhashErrors m) >=? 3) /\
      backoffs evs = (if js_incr attempts >=? MAX_RETRIES then [] else [delay]) /\
      (if js_incr attempts >=? MAX_RETRIES
       then In (ELog LCriticalError) evs
       else ~ In (ELog LCriticalError) evs).
Proof.
  unfold_bot. simpl.
  repeat case_step; do 2 eexists; (split; [reflexivity|]); simpl;
    (repeat split; try reflexivity);
    tidy_trace; eexists; (split; [reflexivity|]); simpl;
    rewrite ?Heqb; simpl;
    repeat split; try reflexivity; auto 8;
    intros F; repeat (destruct F as [F|F]; [discriminate F|]); exact F.
Qed.

Lemma whileLoop_unfold fuel connection attempts delay (m : Machine W) :
  whileLoop (S fuel) connection attempts delay m =
    if attempts <? MAX_RETRIES then
      match tryBlock connection attempts m with
      | (Normal _, m1) => Some (Normal tt, m1)
      | (Throw error, m1) =>
          match catchBlock error connection attempts delay m1 with
          | (Normal (connection', attempts', delay'), m2) =>
              whileLoop fuel connection' attempts' delay' m2
          | (Throw e, m2) => Some (Throw e, m2)
          end
      end
    else Some (Normal tt, m).
Proof. reflexivity. Qed.

(** Induction over the runs of the retry loop: a property of (loop
    variables, machine before, machine after) holds of every finished run
    when it holds of the three ways an evaluation of the loop condition can
    go. *)
Lemma whileLoop_run_ind (P : Z -> Z -> Machine W -> Machine W -> Prop) :
  (forall attempts delay m, MAX_RETRIES <= attempts -> P attempts delay m m) ->
  (forall connection attempts delay m x m1,
      attempts < MAX_RETRIES ->
      tryBlock connection attempts m = (Normal x, m1) ->
      P attempts delay m m1) ->
  (forall connection attempts delay m e m1 connection' m2 m',
      attempts < MAX_RETRIES ->
      tryBlock connection attempts m = (Throw e, m1) ->
      catchBlock e connection attempts delay m1 =
        (Normal (connection', js_incr attempts,
                 if js_incr attempts >=? MAX_RETRIES then delay else delay * 2), m2) ->
      P (js_incr attempts)
        (if js_incr attempts >=? MAX_RETRIES then delay else delay * 2) m2 m' ->
      P attempts delay m m') ->
  forall fuel connection attempts delay m r m',
    whileLoop fuel connection attempts delay m = Some (r, m') ->
    P attempts delay m m'.
Proof.
  intros Hexit Hstop Hretry.
  induction fuel as [|fuel IH]; intros connection attempts delay m r m' H.
  - discriminate H.
  - rewrite whileLoop_unfold in H.
    destruct (Z.ltb_spec attempts MAX_RETRIES) as [Hlt|Hge].
    + destruct (tryBlock connection attempts m) as [[x|e] m1] eqn:Htry.
      * injection H as <- <-. eapply Hstop; eassumption.
      * destruct (catchBlock_spec e connection attempts delay m1)
          as (connection' & m2 & Hcatch & _).
        rewrite Hcatch in H. apply IH in H.
        eapply Hretry; eassumption.
    + injection H as <- <-. apply Hexit. exact Hge.
Qed.

(** The loop stops within [MAX_RETRIES - attempts + 1] evaluations of its
    condition. *)
Lemma whileLoop_total : forall fuel connection attempts delay (m : Machine W),
  0 <= attempts <= MAX_RETRIES ->
  MAX_RETRIES - attempts < Z.of_nat fuel ->
  exists m', whileLoop fuel connection attempts delay m = Some (Normal tt, m').
Proof.
  induction fuel as [|fuel IH]; intros connection attempts delay m Hnn Hfuel.
  - unfold MAX_RETRIES in *. lia.
  - rewrite whileLoop_unfold.
    destruct (Z.ltb_spec attempts MAX_RETRIES) as [Hlt|Hge].
    + destruct (tryBlock connection attempts m) as [[x|e] m1] eqn:Htry.
      * eexists; reflexivity.
      * destruct (catchBlock_spec e connection attempts delay m1)
          as (connection' & m2 & Hcatch & _).
        rewrite Hcatch. apply IH.
        -- unfold MAX_RETRIES, MAX_EXACT in *. rewrite js_incr_exact; unfold MAX_EXACT; lia.
        -- unfold MAX_RETRIES in *. rewrite js_incr_exact; unfold MAX_EXACT; lia.
    + eexists; reflexivity.
Qed.

(** The executor always terminates, and never with an exception. *)
Lemma executeCrankInstruction_total connection (m : Machine W) :
  exists m', executeCrankInstruction connection m = Some (Normal tt, m').
Proof.
  unfold executeCrankInstruction. apply whileLoop_total; unfold MAX_RETRIES; simpl; lia.
Qed.

(** ** The fee veto and the simulation abort *)

(** C1 (as amended).  Take any attempt of any invocation: the loop is
    entered with [attempts < MAX_RETRIES], the validity anchor is fetched
    and the fee query answers an estimate strictly above
    [MAX_FEE_LAMPORTS].  Then the invocation ends in that attempt and
    returns normally; from the start of the attempt on, the events are
    exactly: attempt log, anchor fetch, signature, fee query, veto log.  So
    [sendRawTransaction] is not called, no timer is waited for, no further
    attempt starts, and all four counters, [failureCount] among them, are as
    they were when the attempt began.  With [attempts = 0], [delay = 1000]
    and [fuel = 5] this is the whole invocation [executeCrankInstruction]. *)
Theorem fee_veto_ends_invocation_cleanly
    fuel connection attempts delay (m : Machine W) anchor w1 fee w2 :
  attempts < MAX_RETRIES ->
  getLatestBlockhash connection (world m) = (Normal anchor, w1) ->
  getFeeForMessage connection (signedTx anchor) w1 = (Normal (Some fee), w2) ->
  fee > MAX_FEE_LAMPORTS ->
  exists m' evs,
    whileLoop (S fuel) connection attempts delay m = Some (Normal tt, m') /\
    trace m' = trace m ++ evs /\
    evs = [ ELog (LConstructing (attempts + 1));
            ERpc connection CGetLatestBlockhash; ESign;
            ERpc connection CGetFeeForMessage;
            ELog (LGasTooHigh fee) ] /\
    sends evs = O /\ backoffs evs = [] /\ penalties evs = [] /\
    attemptsStarted evs = 1%nat /\ caughtFailures evs = O /\
    failureCount m' = failureCount m /\
    successCount m' = successCount m /\
    lastSuccessSlot m' = lastSuccessSlot m /\
    consecutiveBlockhashErrors m' = consecutiveBlockhashErrors m /\
    world m' = w2.
Proof.
  intros Hlt Hanchor Hfee Hhigh.
  rewrite whileLoop_unfold.
  destruct (Z.ltb_spec attempts MAX_RETRIES) as [_|Hge]; [|lia].
  unfold_bot. unfold signedTx in Hfee. simpl.
  rewrite Hanchor. simpl. rewrite Hfee. simpl.
  replace (fee >? MAX_FEE_LAMPORTS) with true by (symmetry; apply Z.gtb_lt; lia).
  simpl. do 2 eexists. split; [reflexivity|]. simpl.
  split; [tidy_trace; reflexivity|].
  repeat split; reflexivity.
Qed.

(** C2 (as amended).  Take any attempt of any invocation in which the fee
    check passes and the simulation answers a truthy [err].  Then the
    invocation ends in that attempt and returns normally; from the start of
    the attempt on, the events are exactly: attempt log, anchor fetch,
    signature, fee query, simulation, failure log, metrics log.  So
    [sendRawTransaction] is not called, no timer is waited for and no
    further attempt starts; [failureCount] is one more than when the
    attempt began (as long as it is below [2^53]), and the other counters
    are unchanged. *)
Theorem simulation_error_aborts_invocation
    fuel connection attempts delay (m : Machine W) anchor w1 value w2 err w3 :
  attempts < MAX_RETRIES ->
  failureCount m < MAX_EXACT ->
  getLatestBlockhash connection (world m) = (Normal anchor, w1) ->
  getFeeForMessage connection (signedTx anchor) w1 = (Normal value, w2) ->
  exceedsCeiling value = false ->
  simulateTransaction connection (signedTx anchor) w2 = (Normal err, w3) ->
  truthy err = true ->
  exists m' evs,
    whileLoop (S fuel) connection attempts delay m = Some (Normal tt, m') /\
    trace m' = trace m ++ evs /\
    evs = [ ELog (LConstructing (attempts + 1));
            ERpc connection CGetLatestBlockhash; ESign;
            ERpc connection CGetFeeForMessage;
            ERpc connection CSimulateTransaction;
            ELog (LSimulationFailed err);
            ELog (LMetrics (successCount m) (failureCount m + 1) (lastSuccessSlot m)) ] /\
    sends evs = O /\ backoffs evs = [] /\ penalties evs = [] /\
    attemptsStarted evs = 1%nat /\ caughtFailures evs = O /\
    failureCount m' = failureCount m + 1 /\
    successCount m' = successCount m /\
    lastSuccessSlot m' = lastSuccessSlot m /\
    consecutiveBlockhashErrors m' = consecutiveBlockhashErrors m /\
    world m' = w3.
Proof.
  intros Hlt Hsafe Hanchor Hfee Hpass Hsim Herr.
  rewrite whileLoop_unfold.
  destruct (Z.ltb_spec attempts MAX_RETRIES) as [_|Hge]; [|lia].
  unfold_bot. unfold signedTx in Hfee, Hsim. simpl.
  rewrite Hanchor. simpl. rewrite Hfee. simpl. rewrite Hpass.
  simpl. rewrite Hsim. simpl. rewrite Herr. simpl.
  rewrite (js_incr_exact _ Hsafe).
  do 2 eexists. split; [reflexivity|]. simpl.
  split; [tidy_trace; reflexivity|].
  repeat split; reflexivity.
Qed.

(** ** The order of the steps of an attempt *)

(** C3 (as amended).  In every attempt the steps performed are an initial
    segment of BUILD, SIGN, FEE_CHECK, SIMULATE, SUBMIT, in that order: none
    is skipped or reordered, and a later step is reached only through all
    the earlier ones.  The wallet signs in the build phase, as soon as the
    validity anchor has been fetched, whatever the fee check and the
    simulation will answer; what waits for a passed fee check and a clean
    simulation is the submission: [sendRawTransaction] is called exactly
    when the fee estimate is within the ceiling (or absent) and the
    simulation reports no error. *)
Theorem attempt_steps_in_order connection attempts (m : Machine W) :
  exists evs rest,
    trace (snd (tryBlock connection attempts m)) = trace m ++ evs /\
    steps evs ++ rest = [BUILD; SIGN; FEE_CHECK; SIMULATE; SUBMIT] /\
    (In SIGN (steps evs) <->
       exists anchor w1,
         getLatestBlockhash connection (world m) = (Normal anchor, w1)) /\
    (In SUBMIT (steps evs) <->
       exists anchor w1 value w2 err w3,
         getLatestBlockhash connection (world m) = (Normal anchor, w1) /\
         getFeeForMessage connection (signedTx anchor) w1 = (Normal value, w2) /\
         exceedsCeiling value = false /\
         simulateTransaction connection (signedTx anchor) w2 = (Normal err, w3) /\
         truthy err = false).
Proof.
  unfold_bot. unfold signedTx. simpl.
  repeat case_step; tidy_trace; eexists; eexists;
    (split; [reflexivity|]); simpl;
    (split; [reflexivity|]);
    (split; split);
    try (intros _; eauto 12; fail);
    try (simpl; intuition discriminate);
    try (intros; simpl; tauto);
    try (intros (? & ? & ?); congruence);
    try (intros (? & ? & ? & ? & ? & ? & ? & ? & ? & ? & ?); congruence).
Qed.

(** ** An absent fee estimate *)

(** C10.  A fee query that answers [null] is no veto.  On [null] the
    guardrail runs the simulation and submission code, and it does so on any
    estimate within the ceiling: the two cases are the same computation.  In
    an attempt whose fee query answers [null], the next event after the fee
    query is the call of [simulateTransaction], and when the simulation
    reports no error the event after that is the call of
    [sendRawTransaction]. *)
Theorem null_fee_is_not_a_veto connection attempts (m : Machine W) anchor w1 w2 :
  getLatestBlockhash connection (world m) = (Normal anchor, w1) ->
  getFeeForMessage connection (signedTx anchor) w1 = (Normal None, w2) ->
  let tx := signedTx anchor in
  let m2 :=
    Build_Machine w2 (successCount m) (failureCount m) (lastSuccessSlot m)
      (consecutiveBlockhashErrors m)
      (trace m ++ [ ELog (LConstructing (attempts + 1));
                    ERpc connection CGetLatestBlockhash; ESign;
                    ERpc connection CGetFeeForMessage ]) in
  (forall fee m0, fee <= MAX_FEE_LAMPORTS ->
     gasGuardrail connection tx None m0 = gasGuardrail connection tx (Some fee) m0) /\
  (forall m0, gasGuardrail connection tx None m0 = simulateAndSubmit connection tx m0) /\
  tryBlock connection attempts m = simulateAndSubmit connection tx m2 /\
  exists evs,
    trace (snd (tryBlock connection attempts m)) =
      trace m2 ++ ERpc connection CSimulateTransaction :: evs /\
    (forall err w3,
        simulateTransaction connection tx w2 = (Normal err, w3) ->
        truthy err = false ->
        exists evs', evs = ERpc connection CSendRawTransaction :: evs').
Proof.
  intros Hanchor Hfee tx m2.
  split.
  { intros fee m0 Hle. unfold gasGuardrail. simpl.
    rewrite Z.gtb_ltb.
    destruct (Z.ltb_spec MAX_FEE_LAMPORTS fee); [lia | reflexivity]. }
  split; [reflexivity|].
  assert (Hrun : tryBlock connection attempts m = simulateAndSubmit connection tx m2).
  { subst tx m2. unfold tryBlock, feeGuard, gasGuardrail, sign, buildTx, rpc, log, emit,
      bind, ret. unfold signedTx in *. simpl.
    rewrite Hanchor. simpl. rewrite Hfee. simpl.
    rewrite <- !app_assoc. reflexivity. }
  split; [exact Hrun|].
  rewrite Hrun. clear Hrun. subst tx m2. unfold_bot. simpl.
  repeat case_step; eexists; (split; [tidy_trace; reflexivity|]);
    intros ? ? Hsim Hclean; inversion Hsim; subst; try congruence; eauto.
Qed.

(** ** Failover *)

(** C7.  [getConnectionWithFailover] never fails: for every world it
    returns a connection to one of the two configured endpoints.  It probes
    the primary endpoint first, with one [getSlot] call.  When the probe
    answers, the primary is returned.  When the probe throws, the fallback
    is returned: the primary is not probed again and the fallback is not
    probed at all.  The counters are untouched.  Since it never fails, it
    returns a connection whenever an endpoint is reachable, and a failure
    could only come from a world without any reachable endpoint. *)
Theorem failover_tries_primary_first (m : Machine W) :
  exists connection m',
    getConnectionWithFailover m = (Normal connection, m') /\
    successCount m' = successCount m /\
    failureCount m' = failureCount m /\
    lastSuccessSlot m' = lastSuccessSlot m /\
    consecutiveBlockhashErrors m' = consecutiveBlockhashErrors m /\
    match getSlot PRIMARY_RPC_URL (world m) with
    | (Normal _, w') =>
        connection = PRIMARY_RPC_URL /\
        world m' = w' /\
        trace m' = trace m ++ [ERpc PRIMARY_RPC_URL CGetSlot]
    | (Throw e, w') =>
        connection = FALLBACK_RPC_URL /\
        world m' = w' /\
        trace m' = trace m ++ [ ERpc PRIMARY_RPC_URL CGetSlot;
                                ELog (LPrimaryFailed (message e)) ]
    end.
Proof.
  unfold_bot. simpl.
  destruct (getSlot PRIMARY_RPC_URL (world m)) as [[slot|e] w'];
    simpl; do 2 eexists; (split; [reflexivity|]); simpl;
    repeat split; tidy_trace; reflexivity.
Qed.

(** ** The blockhash expiry guard *)

Lemma guard_counter msg (m : Machine W) :
  consecutiveBlockhashErrors (snd (blockhashExpiryGuard msg m)) =
    if isBlockhashExpiry msg then
      if js_incr (consecutiveBlockhashErrors m) >=? 3 then 0
      else js_incr (consecutiveBlockhashErrors m)
    else 0.
Proof. unfold_bot. simpl. repeat case_step; reflexivity. Qed.

Lemma guard_events msg (m : Machine W) :
  trace (snd (blockhashExpiryGuard msg m)) =
    trace m ++
    if isBlockhashExpiry msg && (js_incr (consecutiveBlockhashErrors m) >=? 3)
    then [ELog LPenaltyWarning; ESetTimeout PenaltyPause 30000]
    else [].
Proof.
  unfold_bot. simpl.
  repeat case_step; tidy_trace; rewrite ?app_nil_r; reflexivity.
Qed.

(** Starting from zero, the counter is the number of expiry-class failures
    since the last failure of another class, counted modulo three. *)
Lemma afterFailures_counter history (m0 : Machine W) :
  consecutiveBlockhashErrors m0 = 0 ->
  consecutiveBlockhashErrors (afterFailures history m0) =
    Z.of_nat (trailingExpiry history mod 3).
Proof.
  intros H0. induction history as [|msg older IH]; cbn [afterFailures trailingExpiry].
  - exact H0.
  - rewrite guard_counter, IH.
    destruct (isBlockhashExpiry msg); [|reflexivity].
    pose proof (Nat.mod_upper_bound (trailingExpiry older) 3 ltac:(discriminate)) as Hb.
    rewrite js_incr_exact by (unfold MAX_EXACT; lia).
    rewrite <- (Nat.add_1_r (trailingExpiry older)), <- Nat.Div0.add_mod_idemp_l.
    destruct (trailingExpiry older mod 3)%nat as [|[|[|k]]]; try reflexivity; lia.
Qed.

Lemma afterFailures_app history2 history1 (m : Machine W) :
  afterFailures (history2 ++ history1) m =
    afterFailures history2 (afterFailures history1 m).
Proof.
  induction history2 as [|msg older IH]; simpl; [reflexivity|].
  rewrite IH. reflexivity.
Qed.

(** What the guard does to the counter and to the pauses depends on the
    machine only through its counter and the pauses it has already made. *)
Lemma afterFailures_frame history (ma mb : Machine W) :
  consecutiveBlockhashErrors ma = consecutiveBlockhashErrors mb ->
  penalties (trace ma) = penalties (trace mb) ->
  consecutiveBlockhashErrors (afterFailures history ma) =
    consecutiveBlockhashErrors (afterFailures history mb) /\
  penalties (trace (afterFailures history ma)) =
    penalties (trace (afterFailures history mb)).
Proof.
  intros Hc Hp. induction history as [|msg older [IHc IHp]]; simpl.
  - split; assumption.
  - rewrite !guard_counter, !guard_events, !penalties_app, IHc, IHp.
    split; reflexivity.
Qed.

(** The retry loop consults the guard once per caught failure and makes no
    other pause: over a run, the pauses are those the guard makes on the
    caught messages, and so is the counter unless a success has reset
    it. *)
Lemma whileLoop_follows_guard fuel connection attempts delay (m : Machine W) r m' :
  whileLoop fuel connection attempts delay m = Some (r, m') ->
  exists evs,
    trace m' = trace m ++ evs /\
    penalties (trace m') =
      penalties (trace (afterFailures (rev (caughtMessages evs)) m)) /\
    (consecutiveBlockhashErrors m' =
       consecutiveBlockhashErrors (afterFailures (rev (caughtMessages evs)) m) \/
     (consecutiveBlockhashErrors m' = 0 /\ existsb isSuccess evs = true)).
Proof.
  revert fuel connection attempts delay m r m'.
  apply (whileLoop_run_ind (fun _ _ m m' =>
    exists evs,
      trace m' = trace m ++ evs /\
      penalties (trace m') =
        penalties (trace (afterFailures (rev (caughtMessages evs)) m)) /\
      (consecutiveBlockhashErrors m' =
         consecutiveBlockhashErrors (afterFailures (rev (caughtMessages evs)) m) \/
       (consecutiveBlockhashErrors m' = 0 /\ existsb isSuccess evs = true)))).
  - intros _ _ m _. exists []. rewrite app_nil_r. simpl. auto.
  - intros connection attempts _ m x m1 _ Htry.
    destruct (tryBlock_run _ _ _ _ _ Htry)
      as (evs & Htr & _ & Hp & _ & _ & _ & _ & Hc).
    exists evs. rewrite (tryBlock_messages _ _ _ _ _ _ Htry Htr). simpl.
    split; [exact Htr|]. split; [|exact Hc].
    rewrite Htr, penalties_app, Hp, app_nil_r. reflexivity.
  - intros connection attempts delay m e m1 connection' m2 m' _ Htry Hcatch
      (evs3 & Htr3 & Hp3 & Hc3).
    destruct (tryBlock_run _ _ _ _ _ Htry)
      as (evs1 & Htr1 & _ & Hp1 & _ & _ & _ & _ & _ & _ & _ & Hc1).
    destruct (catchBlock_spec e connection attempts delay m1)
      as (c2 & m2' & Hcatch' & _ & _ & _ & Hc2 & evs2 & Htr2 & _ & _ & _ & _
          & _ & Hp2 & _).
    rewrite Hcatch in Hcatch'. injection Hcatch' as _ <-.
    exists (evs1 ++ evs2 ++ evs3).
    split; [rewrite Htr3, Htr2, Htr1, <- !app_assoc; reflexivity|].
    rewrite !caughtMessages_app,
      (tryBlock_messages _ _ _ _ _ _ Htry Htr1),
      (catchBlock_messages _ _ _ _ _ _ _ _ Hcatch Htr2).
    simpl. rewrite afterFailures_app. simpl.
    destruct (afterFailures_frame (rev (caughtMessages evs3)) m2
                (snd (blockhashExpiryGuard (message e) m))) as [Hfc Hfp].
    + rewrite guard_counter, Hc2, Hc1. reflexivity.
    + rewrite guard_events, Htr2, Htr1, !penalties_app, Hp1, Hp2, Hc1, app_nil_r.
      destruct (isBlockhashExpiry (message e)
                && (js_incr (consecutiveBlockhashErrors m) >=? 3)); reflexivity.
    + rewrite <- Hfc, <- Hfp. split; [exact Hp3|].
      destruct Hc3 as [Hc3|[Hz Hs]]; [left; exact Hc3|].
      right. split; [exact Hz|].
      rewrite !existsb_app, Hs, !orb_true_r. reflexivity.
Qed.

(** C5.  Let the guard handle any sequence of failures, starting from a
    counter at zero, and then one more failure.  The counter then equals the
    number of expiry-class failures at the end of the sequence, modulo
    three.  If the new failure is in the expiry class and is the third in a
    row (two precede it since the last reset), the guard logs the warning,
    waits one penalty pause of 30000 ms, exactly one, and leaves the counter
    at zero.  If it is in the expiry class and the first or second in a row,
    the guard only adds one to the counter.  If it is of another class, the
    counter is set to zero and nothing is waited for, whether one, two or no
    expiry-class failures precede it.  The executor follows the guard: the
    penalty pauses of an invocation are those the guard makes on the
    failures the invocation catches, in order, and the counter it leaves is
    the guard's, unless a success has set it to zero. *)
Theorem third_consecutive_expiry_pauses_once
    (history : list string) (msg : string) (m0 : Machine W) :
  consecutiveBlockhashErrors m0 = 0 ->
  let m := afterFailures history m0 in
  let m' := snd (blockhashExpiryGuard msg m) in
  consecutiveBlockhashErrors m = Z.of_nat (trailingExpiry history mod 3) /\
  (exists evs,
    trace m' = trace m ++ evs /\
    (isBlockhashExpiry msg = true -> (trailingExpiry history mod 3 = 2)%nat ->
       evs = [ELog LPenaltyWarning; ESetTimeout PenaltyPause 30000] /\
       penalties evs = [30000] /\
       consecutiveBlockhashErrors m' = 0) /\
    (isBlockhashExpiry msg = true -> (trailingExpiry history mod 3 < 2)%nat ->
       evs = [] /\
       consecutiveBlockhashErrors m' = consecutiveBlockhashErrors m + 1) /\
    (isBlockhashExpiry msg = false ->
       evs = [] /\ consecutiveBlockhashErrors m' = 0)) /\
  (forall connection (before : Machine W),
    exists after evs,
      executeCrankInstruction connection before = Some (Normal tt, after) /\
      trace after = trace before ++ evs /\
      penalties (trace after) =
        penalties (trace (afterFailures (rev (caughtMessages evs)) before)) /\
      (consecutiveBlockhashErrors after =
         consecutiveBlockhashErrors
           (afterFailures (rev (caughtMessages evs)) before) \/
       (consecutiveBlockhashErrors after = 0 /\ existsb isSuccess evs = true))).
Proof.
  intros H0 m m'. subst m m'.
  pose proof (afterFailures_counter history m0 H0) as Hc.
  split; [exact Hc|]. split.
  - eexists. split; [apply guard_events|].
    rewrite guard_counter, Hc.
    pose proof (Nat.mod_upper_bound (trailingExpiry history) 3 ltac:(discriminate)) as Hb.
    rewrite js_incr_exact by (unfold MAX_EXACT; lia).
    split; [|split].
    + intros Hclass Hrun. rewrite Hclass, Hrun. simpl. repeat split.
    + intros Hclass Hrun. rewrite Hclass. cbn [andb].
      destruct (Z.geb_spec (Z.of_nat (trailingExpiry history mod 3) + 1) 3);
        [lia | split; reflexivity].
    + intros Hclass. rewrite Hclass. simpl. split; reflexivity.
  - intros connection before.
    destruct (executeCrankInstruction_total connection before) as (after & Hrun).
    destruct (whileLoop_follows_guard _ _ _ _ _ _ _ Hrun) as (evs & Htr & Hp & Hcnt).
    exists after, evs. repeat split; assumption.
Qed.

(** ** Invariants of the retry loop *)

Lemma existsb_isReset evs :
  existsb isReset evs =
    existsb isSuccess evs || existsb isPenaltyPause evs || existsb isOtherFailure evs.
Proof.
  induction evs as [|e evs IH]; simpl; [reflexivity|].
  rewrite IH. unfold isReset.
  destruct (isSuccess e), (isPenaltyPause e), (isOtherFailure e),
    (existsb isSuccess evs), (existsb isPenaltyPause evs); reflexivity.
Qed.

Lemma js_incr_le n : n <= js_incr n.
Proof. unfold js_incr. destruct (n <? MAX_EXACT); lia. Qed.

Lemma js_incr_attempts attempts : attempts < MAX_RETRIES -> js_incr attempts = attempts + 1.
Proof. intros H. apply js_incr_exact. unfold MAX_RETRIES, MAX_EXACT in *. lia. Qed.

(** Without a reset event the counter does not decrease over a run of the
    loop. *)
Lemma whileLoop_counter fuel connection attempts delay (m : Machine W) r m' :
  whileLoop fuel connection attempts delay m = Some (r, m') ->
  exists evs,
    trace m' = trace m ++ evs /\
    (existsb isReset evs = false ->
     consecutiveBlockhashErrors m <= consecutiveBlockhashErrors m').
Proof.
  revert fuel connection attempts delay m r m'.
  apply (whileLoop_run_ind (fun _ _ m m' =>
    exists evs,
      trace m' = trace m ++ evs /\
      (existsb isReset evs = false ->
       consecutiveBlockhashErrors m <= consecutiveBlockhashErrors m'))).
  - intros _ _ m _. exists []. rewrite app_nil_r. split; [reflexivity | lia].
  - intros connection attempts _ m x m1 _ Htry.
    destruct (tryBlock_run _ _ _ _ _ Htry)
      as (evs & Htr & _ & _ & _ & _ & _ & _ & Hc).
    exists evs. split; [exact Htr|]. intros Hnone.
    rewrite existsb_isReset in Hnone.
    destruct Hc as [Hc|[_ Hs]]; [lia|].
    rewrite Hs in Hnone. discriminate Hnone.
  - intros connection attempts delay m e m1 connection' m2 m' _ Htry Hcatch
      (evs3 & Htr3 & IH).
    destruct (tryBlock_run _ _ _ _ _ Htry)
      as (evs1 & Htr1 & _ & _ & _ & _ & _ & _ & _ & _ & _ & Hc1).
    destruct (catchBlock_spec e connection attempts delay m1)
      as (c2 & m2' & Hcatch' & _ & _ & _ & Hc2 & evs2 & Htr2 & _ & _ & _ & _
          & Hother & _ & Hpause & _).
    rewrite Hcatch in Hcatch'. injection Hcatch' as _ <-.
    exists (evs1 ++ evs2 ++ evs3).
    split; [rewrite Htr3, Htr2, Htr1, <- !app_assoc; reflexivity|].
    rewrite !existsb_app. intros Hnone.
    apply orb_false_elim in Hnone. destruct Hnone as [_ Hnone].
    apply orb_false_elim in Hnone. destruct Hnone as [Hnone2 Hnone3].
    specialize (IH Hnone3).
    rewrite existsb_isReset in Hnone2.
    rewrite Hother, Hpause in Hnone2.
    destruct (isBlockhashExpiry (message e));
      [|rewrite orb_true_r in Hnone2; discriminate Hnone2].
    simpl in Hnone2. rewrite orb_false_r in Hnone2.
    apply orb_false_elim in Hnone2. destruct Hnone2 as [_ Hnone2].
    rewrite Hnone2 in Hc2.
    pose proof (js_incr_le (consecutiveBlockhashErrors m1)). lia.
Qed.

(** C9 (as amended).  Over an invocation, [consecutiveBlockhashErrors] is
    set back to zero only by one of three events: a success, a penalty
    pause, or a caught failure outside the expiry class.  An invocation
    without any of these events does not decrease the counter; so when the
    counter is positive before and zero after, one of the three events
    happened in between. *)
Theorem counter_reset_only_by_three_events connection (m : Machine W) :
  exists m' evs,
    executeCrankInstruction connection m = Some (Normal tt, m') /\
    trace m' = trace m ++ evs /\
    (existsb isReset evs = false ->
     consecutiveBlockhashErrors m <= consecutiveBlockhashErrors m') /\
    (0 < consecutiveBlockhashErrors m ->
     consecutiveBlockhashErrors m' = 0 ->
     existsb isSuccess evs = true \/
     existsb isPenaltyPause evs = true \/
     existsb isOtherFailure evs = true).
Proof.
  destruct (executeCrankInstruction_total connection m) as (m' & Hrun).
  destruct (whileLoop_counter _ _ _ _ _ _ _ Hrun) as (evs & Htr & Hmono).
  exists m', evs. repeat split; try assumption.
  intros Hpos Hzero.
  destruct (existsb isReset evs) eqn:Hreset.
  - rewrite existsb_isReset in Hreset.
    destruct (existsb isSuccess evs); [left; reflexivity|].
    destruct (existsb isPenaltyPause evs); [right; left; reflexivity|].
    right; right. exact Hreset.
  - specialize (Hmono eq_refl). lia.
Qed.

(** The backoff waits of a run of the loop that starts with [delay] are
    [delay], twice [delay], and so on, one before each further attempt. *)
Lemma whileLoop_backoffs fuel connection attempts delay (m : Machine W) r m' :
  whileLoop fuel connection attempts delay m = Some (r, m') ->
  exists evs k,
    trace m' = trace m ++ evs /\
    backoffs evs = doubling delay k /\
    (attempts < MAX_RETRIES -> attemptsStarted evs = S k) /\
    (MAX_RETRIES <= attempts -> evs = [] /\ k = O) /\
    (attempts < MAX_RETRIES -> Z.of_nat k <= MAX_RETRIES - 1 - attempts).
Proof.
  revert fuel connection attempts delay m r m'.
  apply (whileLoop_run_ind (fun attempts delay m m' =>
    exists evs k,
      trace m' = trace m ++ evs /\
      backoffs evs = doubling delay k /\
      (attempts < MAX_RETRIES -> attemptsStarted evs = S k) /\
      (MAX_RETRIES <= attempts -> evs = [] /\ k = O) /\
      (attempts < MAX_RETRIES -> Z.of_nat k <= MAX_RETRIES - 1 - attempts))).
  - intros attempts delay m Hge. exists [], O. rewrite app_nil_r.
    repeat split; try reflexivity; lia.
  - intros connection attempts delay m x m1 Hlt Htry.
    destruct (tryBlock_run _ _ _ _ _ Htry)
      as (evs & Htr & Hb & _ & _ & Hstarted & _).
    exists evs, O. repeat split; try assumption; try lia.
  - intros connection attempts delay m e m1 connection' m2 m' Hlt Htry Hcatch
      (evs3 & k & Htr3 & Hb3 & Hs3 & Hexit3 & Hk3).
    destruct (tryBlock_run _ _ _ _ _ Htry)
      as (evs1 & Htr1 & Hb1 & _ & _ & Hs1 & _).
    destruct (catchBlock_spec e connection attempts delay m1)
      as (c2 & m2' & Hcatch' & _ & _ & _ & _ & evs2 & Htr2 & _ & Hs2 & _ & _
          & _ & _ & _ & Hb2 & _).
    rewrite Hcatch in Hcatch'. injection Hcatch' as _ <-.
    rewrite (js_incr_attempts _ Hlt) in *.
    destruct (Z.geb_spec (attempts + 1) MAX_RETRIES) as [Hlast|Hmore].
    + destruct (Hexit3 Hlast) as [-> ->].
      exists (evs1 ++ evs2), O.
      split; [rewrite Htr3, Htr2, Htr1, app_nil_r, <- app_assoc; reflexivity|].
      rewrite backoffs_app, attemptsStarted_app, Hb1, Hb2, Hs1, Hs2.
      repeat split; try reflexivity; lia.
    + exists (evs1 ++ evs2 ++ evs3), (S k).
      split; [rewrite Htr3, Htr2, Htr1, <- !app_assoc; reflexivity|].
      rewrite !backoffs_app, !attemptsStarted_app, Hb1, Hb2, Hb3, Hs1, Hs2,
        (Hs3 Hmore).
      specialize (Hk3 Hmore).
      repeat split; try reflexivity; lia.
Qed.

(** C4.  In every invocation the backoff waits are 1000 ms, 2000 ms,
    4000 ms, ...: one wait before each retry, the first of 1000 ms and each
    next one twice the one before, so the wait before the n-th retry is
    [1000 * 2^(n-1)] ms.  An invocation that starts [k + 1] attempts has
    exactly [k] backoff waits, and [k] is at most 4. *)
Theorem backoff_doubles_from_base connection (m : Machine W) :
  exists m' evs k,
    executeCrankInstruction connection m = Some (Normal tt, m') /\
    trace m' = trace m ++ evs /\
    attemptsStarted evs = S k /\
    (k <= 4)%nat /\
    backoffs evs = doubling 1000 k /\
    List.length (backoffs evs) = k /\
    (forall n d, nth_error (backoffs evs) n = Some d ->
                 nth_error (backoffs evs) (S n) = None \/
                 nth_error (backoffs evs) (S n) = Some (d * 2)) /\
    (forall n d, (1 <= n)%nat ->
                 nth_error (backoffs evs) (n - 1) = Some d ->
                 d = 1000 * 2 ^ (Z.of_nat n - 1)).
Proof.
  destruct (executeCrankInstruction_total connection m) as (m' & Hrun).
  destruct (whileLoop_backoffs _ _ _ _ _ _ _ Hrun)
    as (evs & k & Htr & Hb & Hs & _ & Hk).
  assert (Hlt : 0 < MAX_RETRIES) by (unfold MAX_RETRIES; lia).
  specialize (Hs Hlt). specialize (Hk Hlt). unfold MAX_RETRIES in Hk.
  exists m', evs, k. rewrite Hb, doubling_length.
  repeat split; try assumption; try lia.
  - intros n d Hn.
    destruct (nth_error (doubling 1000 k) (S n)) as [d'|] eqn:Hn'; [|left; reflexivity].
    right. apply doubling_nth in Hn, Hn'. subst.
    rewrite Nat2Z.inj_succ, Z.pow_succ_r by lia. f_equal. ring.
  - intros n d Hn Hd. apply doubling_nth in Hd. subst d.
    replace (Z.of_nat (n - 1)) with (Z.of_nat n - 1) by lia. reflexivity.
Qed.

(** The failures counted over a run of the loop, and the runs whose every
    attempt fails. *)
Lemma whileLoop_exhausted fuel connection attempts delay (m : Machine W) r m' :
  whileLoop fuel connection attempts delay m = Some (r, m') ->
  failureCount m + (MAX_RETRIES - attempts) <= MAX_EXACT ->
  exists evs,
    trace m' = trace m ++ evs /\
    (MAX_RETRIES <= attempts -> evs = [] /\ failureCount m' = failureCount m) /\
    (attempts < MAX_RETRIES ->
     Z.of_nat (caughtFailures evs) <= MAX_RETRIES - attempts) /\
    (attempts < MAX_RETRIES ->
     Z.of_nat (caughtFailures evs) = MAX_RETRIES - attempts ->
     In (ELog LCriticalError) evs /\
     failureCount m' = failureCount m + (MAX_RETRIES - attempts)) /\
    (attempts < MAX_RETRIES ->
     In (ELog LCriticalError) evs ->
     Z.of_nat (caughtFailures evs) = MAX_RETRIES - attempts).
Proof.
  revert fuel connection attempts delay m r m'.
  apply (whileLoop_run_ind (fun attempts delay m m' =>
    failureCount m + (MAX_RETRIES - attempts) <= MAX_EXACT ->
    exists evs,
      trace m' = trace m ++ evs /\
      (MAX_RETRIES <= attempts -> evs = [] /\ failureCount m' = failureCount m) /\
      (attempts < MAX_RETRIES ->
       Z.of_nat (caughtFailures evs) <= MAX_RETRIES - attempts) /\
      (attempts < MAX_RETRIES ->
       Z.of_nat (caughtFailures evs) = MAX_RETRIES - attempts ->
       In (ELog LCriticalError) evs /\
       failureCount m' = failureCount m + (MAX_RETRIES - attempts)) /\
      (attempts < MAX_RETRIES ->
       In (ELog LCriticalError) evs ->
       Z.of_nat (caughtFailures evs) = MAX_RETRIES - attempts))).
  - intros attempts _ m Hge _. exists []. rewrite app_nil_r.
    split; [reflexivity|]. split; [split; reflexivity|].
    split; [|split]; intros; lia.
  - intros connection attempts _ m x m1 Hlt Htry _.
    destruct (tryBlock_run _ _ _ _ _ Htry) as (evs & Htr & _ & _ & Hf & _).
    exists evs. rewrite Hf.
    split; [exact Htr|]. split; [intros; lia|].
    split; [|split]; intros; try lia.
    exfalso. eapply tryBlock_no_critical; eassumption.
  - intros connection attempts delay m e m1 connection' m2 m' Hlt Htry Hcatch IH Hsafe.
    destruct (tryBlock_run _ _ _ _ _ Htry)
      as (evs1 & Htr1 & _ & _ & Hf1 & _ & _ & _ & _ & Hfc1 & _).
    pose proof (tryBlock_no_critical _ _ _ _ _ _ Htry Htr1) as Hquiet1.
    destruct (catchBlock_spec e connection attempts delay m1)
      as (c2 & m2' & Hcatch' & _ & Hfc2 & _ & _ & evs2 & Htr2 & Hf2 & _ & _ & _
          & _ & _ & _ & _ & Hcrit).
    rewrite Hcatch in Hcatch'. injection Hcatch' as _ <-.
    rewrite (js_incr_attempts _ Hlt) in *.
    rewrite js_incr_exact in Hfc2 by lia.
    destruct IH as (evs3 & Htr3 & Hexit3 & Hbound3 & Hall3 & Honly3); [lia|].
    exists (evs1 ++ evs2 ++ evs3).
    split; [rewrite Htr3, Htr2, Htr1, <- !app_assoc; reflexivity|].
    rewrite !caughtFailures_app, Hf1, Hf2.
    destruct (Z.geb_spec (attempts + 1) MAX_RETRIES) as [Hlast|Hmore].
    + destruct (Hexit3 Hlast) as [-> Hfc3].
      split; [intros; lia|]. split; [intros _; cbn [caughtFailures]; lia|].
      split; [|intros _ _; cbn [caughtFailures]; lia].
      intros _ _. split; [|lia].
      apply in_or_app. right. apply in_or_app. left. exact Hcrit.
    + specialize (Hbound3 Hmore).
      split; [intros; lia|]. split; [intros _; lia|]. split.
      * intros _ Hall. destruct (Hall3 Hmore) as [Hin Hfc3]; [lia|].
        split; [|lia].
        apply in_or_app. right. apply in_or_app. right. exact Hin.
      * intros _ Hin.
        apply in_app_or in Hin. destruct Hin as [Hin|Hin]; [destruct (Hquiet1 Hin)|].
        apply in_app_or in Hin. destruct Hin as [Hin|Hin]; [destruct (Hcrit Hin)|].
        specialize (Honly3 Hmore Hin). lia.
Qed.

(** C6.  Every invocation returns normally: the executor has no path that
    lets an exception out.  An invocation handles at most five failures,
    and it logs the critical error exactly when it has handled five, that
    is when all five attempts failed and the budget is exhausted; then
    [failureCount] has grown by exactly five (as long as it stays within
    [2^53]). *)
Theorem exhausted_budget_returns_normally connection (m : Machine W) :
  failureCount m + 5 <= MAX_EXACT ->
  exists m',
    executeCrankInstruction connection m = Some (Normal tt, m') /\
    forall evs,
      trace m' = trace m ++ evs ->
      (caughtFailures evs <= 5)%nat /\
      (caughtFailures evs = 5%nat <-> In (ELog LCriticalError) evs) /\
      (caughtFailures evs = 5%nat -> failureCount m' = failureCount m + 5).
Proof.
  intros Hsafe.
  destruct (executeCrankInstruction_total connection m) as (m' & Hrun).
  exists m'. split; [exact Hrun|].
  intros evs Htr.
  destruct (whileLoop_exhausted _ _ _ _ _ _ _ Hrun)
    as (evs' & Htr' & _ & Hbound & Hall & Honly); [unfold MAX_RETRIES; lia|].
  rewrite Htr' in Htr. apply app_inv_head in Htr. subst evs'.
  assert (Hlt : 0 < MAX_RETRIES) by (unfold MAX_RETRIES; lia).
  specialize (Hbound Hlt). specialize (Hall Hlt). specialize (Honly Hlt).
  unfold MAX_RETRIES in *.
  split; [lia|]. split; [split|].
  - intros Hfive. apply Hall. lia.
  - intros Hin. specialize (Honly Hin). lia.
  - intros Hfive. apply Hall. lia.
Qed.

End BotFacts.

(** ** Start-up *)

Section StartupFacts.

Context {J K : Type} {runtime : KeyRuntime J K}.

(** The wallet initialisation of lines 29-42.  It exits, with code 1,
    exactly when the key material is rejected; it generates a keypair, with
    the warning, exactly when there is no key material; it takes the
    provided key, without warning, exactly when a usable key is provided.
    An unset or empty variable, and the text of the empty array, are no
    key material. *)
Lemma loadCrankWallet_spec (CRANK_KEYPAIR_JSON : option string) :
  (loadCrankWallet CRANK_KEYPAIR_JSON = ProcessExit 1 <->
   keyMaterialRejected CRANK_KEYPAIR_JSON) /\
  (forall code, loadCrankWallet CRANK_KEYPAIR_JSON = ProcessExit code -> code = 1) /\
  (loadCrankWallet CRANK_KEYPAIR_JSON = EntersLoop generate true <->
   keyMaterialEmpty CRANK_KEYPAIR_JSON) /\
  ((exists keypair, loadCrankWallet CRANK_KEYPAIR_JSON = EntersLoop keypair false) <->
   providesUsableKey CRANK_KEYPAIR_JSON) /\
  (keypairText CRANK_KEYPAIR_JSON = "[]" ->
   loadCrankWallet CRANK_KEYPAIR_JSON = EntersLoop generate true).
Proof.
  unfold loadCrankWallet, keyMaterialRejected, keyMaterialEmpty, providesUsableKey.
  split; [|split; [|split; [|split]]].
  - destruct (JSON_parse (keypairText CRANK_KEYPAIR_JSON)) as [arr|e] eqn:Hparse.
    + destruct (length_gt_0 arr) as [[|]|e] eqn:Hlen.
      * destruct (fromSecretKey arr) as [kp|e] eqn:Hkey.
        -- split; [discriminate|].
           intros [(e & H)|[(a & e & H & H')|(a & e & H & _ & H')]]; congruence.
        -- split; [|reflexivity]. intros _. right. right. eauto.
      * split; [discriminate|].
        intros [(e & H)|[(a & e & H & H')|(a & e & H & H' & _)]]; congruence.
      * split; [|reflexivity]. intros _. right. left. eauto.
    + split; [|reflexivity]. intros _. left. eauto.
  - intros code.
    destruct (JSON_parse (keypairText CRANK_KEYPAIR_JSON)) as [arr|e];
      [destruct (length_gt_0 arr) as [[|]|e];
       [destruct (fromSecretKey arr) as [kp|e]| |]|];
      intros H; congruence.
  - destruct (JSON_parse (keypairText CRANK_KEYPAIR_JSON)) as [arr|e] eqn:Hparse.
    + destruct (length_gt_0 arr) as [[|]|e] eqn:Hlen.
      * destruct (fromSecretKey arr) as [kp|e] eqn:Hkey;
          (split; [discriminate | intros (a & H & H'); congruence]).
      * split; [|reflexivity]. intros _. eauto.
      * split; [discriminate | intros (a & H & H'); congruence].
    + split; [discriminate | intros (a & H & _); congruence].
  - destruct (JSON_parse (keypairText CRANK_KEYPAIR_JSON)) as [arr|e] eqn:Hparse.
    + destruct (length_gt_0 arr) as [[|]|e] eqn:Hlen.
      * destruct (fromSecretKey arr) as [kp|e] eqn:Hkey.
        -- split; [intros _; eauto | intros _; eauto].
        -- split; [intros (kp & H); discriminate H
                  | intros (a & kp & H & _ & H'); congruence].
      * split; [intros (kp & H); discriminate H
               | intros (a & kp & H & H' & _); congruence].
      * split; [intros (kp & H); discriminate H
               | intros (a & kp & H & H' & _); congruence].
    + split; [intros (kp & H); discriminate H
             | intros (a & kp & H & _); congruence].
  - intros Htext. rewrite Htext.
    destruct parse_empty_array as (arr & -> & ->). reflexivity.
Qed.

End StartupFacts.

Section ModuleStartFacts.

Context {P J K : Type} {addresses : AddressRuntime P} {runtime : KeyRuntime J K}.

(** What start-up does with the addresses: an address that is rejected
    ends it before the wallet is looked at. *)
Lemma startModule_addresses (env : ProcessEnv) :
  (addressRejected env /\ exists e, startModule env = UncaughtException e) \/
  (exists programId slab oracle,
     addressesAccepted env programId slab oracle /\
     startModule env =
       match loadCrankWallet (env_CRANK_KEYPAIR_JSON env) with
       | ProcessExit code => Exits code
       | EntersLoop crankWallet warned =>
           CallsLoop programId slab oracle crankWallet warned
       end).
Proof.
  unfold startModule, addressRejected, addressesAccepted.
  destruct (newPublicKey (programIdText env)) as [programId|e1] eqn:H1;
    [|left; split; [left|]; eauto].
  destruct (newPublicKey (slabText env)) as [slab|e2] eqn:H2;
    [|left; split; [right; left|]; eauto].
  destruct (newPublicKey (oracleText env)) as [oracle|e3] eqn:H3;
    [|left; split; [right; right|]; eauto].
  right. exists programId, slab, oracle. auto.
Qed.

(** C8 (as amended).  Module start-up, up to the call of [loop()], for
    every environment and every behaviour of the SDK.

    - It is fatal ([loop()] is not called) exactly when one of the three
      configured addresses is rejected or the provided key material is
      rejected, and a fatal start-up ends with exit code 1.
    - A rejected address ends start-up with an uncaught exception,
      whatever the key.
    - When the addresses are accepted, what happens is decided by the key
      material alone.  Start-up exits at line 41 exactly when the key
      material is rejected (its text does not parse, the parsed value has
      no readable length, or no keypair can be made from it).  With no key
      material (the variable is unset or empty, or holds an empty array)
      start-up is not fatal: a keypair is generated, the warning is printed
      and [loop()] is called.  [loop()] is called with the provided key,
      without warning, exactly when a usable key is provided. *)
Theorem startup_fatal_on_rejected_address_or_key (env : ProcessEnv) :
  (fatal (startModule env) = true <->
   addressRejected env \/ keyMaterialRejected (env_CRANK_KEYPAIR_JSON env)) /\
  (fatal (startModule env) = true -> exitCode (startModule env) = Some 1) /\
  (addressRejected env <-> exists e, startModule env = UncaughtException e) /\
  (forall programId slab oracle,
     addressesAccepted env programId slab oracle ->
     (startModule env = Exits 1 <->
      keyMaterialRejected (env_CRANK_KEYPAIR_JSON env)) /\
     (startModule env = CallsLoop programId slab oracle generate true <->
      keyMaterialEmpty (env_CRANK_KEYPAIR_JSON env)) /\
     ((exists keypair,
         startModule env = CallsLoop programId slab oracle keypair false) <->
      providesUsableKey (env_CRANK_KEYPAIR_JSON env)) /\
     (keypairText (env_CRANK_KEYPAIR_JSON env) = "[]" ->
      startModule env = CallsLoop programId slab oracle generate true)).
Proof.
  destruct (loadCrankWallet_spec (env_CRANK_KEYPAIR_JSON env))
    as (Hexit & Hcode & Hgen & Hkey & Hnone).
  destruct (startModule_addresses env)
    as [(Hrej & e & Hstart)|(programId & slab & oracle & Hacc & Hstart)].
  - rewrite Hstart. simpl.
    split; [split; [intros _; left; exact Hrej | reflexivity]|].
    split; [reflexivity|].
    split; [split; [intros _; eauto | intros _; exact Hrej]|].
    intros programId slab oracle (H1 & H2 & H3).
    destruct Hrej as [(e' & H)|[(e' & H)|(e' & H)]]; congruence.
  - assert (Hnot : ~ addressRejected env).
    { destruct Hacc as (H1 & H2 & H3).
      intros [(e' & H)|[(e' & H)|(e' & H)]]; congruence. }
    rewrite Hstart.
    destruct (loadCrankWallet (env_CRANK_KEYPAIR_JSON env))
      as [code|crankWallet warned] eqn:Hload.
    + assert (code = 1) by (apply Hcode; reflexivity). subst code. simpl.
      split; [split; [intros _; right; apply Hexit; reflexivity | reflexivity]|].
      split; [reflexivity|].
      split; [split; [intros H; contradiction | intros (e & H); discriminate H]|].
      intros programId' slab' oracle' (H1 & H2 & H3).
      destruct Hacc as (H1' & H2' & H3').
      split; [split; [intros _; apply Hexit; reflexivity | reflexivity]|].
      split; [split; [intros H; discriminate H
                     | intros H; apply Hgen in H; discriminate H]|].
      split; [split; [intros (kp & H); discriminate H
                     | intros H; apply Hkey in H; destruct H as (kp & H);
                       discriminate H]|].
      intros H; apply Hnone in H; discriminate H.
    + simpl.
      split; [split; [intros H; discriminate H
                     | intros [H|H]; [contradiction
                                     | apply Hexit in H; discriminate H]]|].
      split; [intros H; discriminate H|].
      split; [split; [intros H; contradiction | intros (e & H); discriminate H]|].
      intros programId' slab' oracle' (H1 & H2 & H3).
      destruct Hacc as (H1' & H2' & H3').
      assert (programId' = programId) by congruence.
      assert (slab' = slab) by congruence.
      assert (oracle' = oracle) by congruence. subst.
      split; [split; [intros H; discriminate H
                     | intros H; apply Hexit in H; discriminate H]|].
      split; [split; [intros H; apply Hgen; congruence
                     | intros H; apply Hgen in H; congruence]|].
      split; [split; [intros (kp & H); apply Hkey; exists kp; congruence
                     | intros H; apply Hkey in H; destruct H as (kp & H);
                       exists kp; congruence]|].
      intros H; apply Hnone in H; congruence.
Qed.

End ModuleStartFacts.

(** ** Runs on the scripted ledger *)

(** Evaluate the run named in the goal, then give its final machine. *)
Ltac evaluate_run :=
  match goal with
  | |- context [executeCrankInstruction ?c ?m] =>
      let run := fresh "run" in
      let Hrun := fresh "Hrun" in
      remember (executeCrankInstruction c m) as run eqn:Hrun;
      vm_compute in Hrun; subst run
  end.

Ltac find_in := repeat first [left; reflexivity | right].

(** C1 as stated fails on invocations whose veto is not in the first
    attempt.  First run: the anchor fetch of attempt 1 fails, attempt 2 is
    vetoed.  The one fee query of the invocation answered 6,000,000
    lamports, above the ceiling, and yet [failureCount] went from 0 to 1 and
    one retry was made after a backoff of 1000 ms.  Second run: attempt 1 is
    submitted and refused, attempt 2 is vetoed; over the invocation
    [sendRawTransaction] was called once. *)
Lemma fee_veto_after_failed_attempt :
  (exists m',
     executeCrankInstruction PRIMARY_RPC_URL (freshMachine anchorFailureThenFeeVeto)
       = Some (Normal tt, m') /\
     calls CGetFeeForMessage (trace m') = 1%nat /\
     In (ELog (LGasTooHigh 6000000)) (trace m') /\
     6000000 > MAX_FEE_LAMPORTS /\
     failureCount (freshMachine anchorFailureThenFeeVeto) = 0 /\
     failureCount m' = 1 /\
     attemptsStarted (trace m') = 2%nat /\
     backoffs (trace m') = [1000]) /\
  (exists m',
     executeCrankInstruction PRIMARY_RPC_URL (freshMachine feeSpikeAfterExpiry)
       = Some (Normal tt, m') /\
     In (ELog (LGasTooHigh 6000000)) (trace m') /\
     sends (trace m') = 1%nat /\
     failureCount m' = 1 /\
     attemptsStarted (trace m') = 2%nat).
Proof.
  split.
  - evaluate_run. eexists. split; [reflexivity|]. split; [reflexivity|].
    split; [vm_compute; find_in|]. repeat split.
  - evaluate_run. eexists. split; [reflexivity|].
    split; [vm_compute; find_in|]. repeat split.
Qed.

(** C1, the amended statement at a first attempt on the scripted ledger. *)
Lemma fee_veto_witness :
  0 < MAX_RETRIES /\
  getLatestBlockhash PRIMARY_RPC_URL (world (freshMachine feeAboveCeiling))
    = (Normal anchor1, [RFee (Some 6000000)]) /\
  getFeeForMessage PRIMARY_RPC_URL (signedTx anchor1) [RFee (Some 6000000)]
    = (Normal (Some 6000000), []) /\
  6000000 > MAX_FEE_LAMPORTS /\
  exists m',
    executeCrankInstruction PRIMARY_RPC_URL (freshMachine feeAboveCeiling)
      = Some (Normal tt, m') /\
    sends (trace m') = O /\
    backoffs (trace m') = [] /\
    attemptsStarted (trace m') = 1%nat /\
    failureCount m' = 0.
Proof.
  assert (H1 : 0 < MAX_RETRIES) by reflexivity.
  assert (H4 : 6000000 > MAX_FEE_LAMPORTS) by reflexivity.
  split; [exact H1|]. split; [reflexivity|]. split; [reflexivity|].
  split; [exact H4|].
  destruct (fee_veto_ends_invocation_cleanly (ledger := scriptedLedger)
              5 PRIMARY_RPC_URL 0 1000
              (freshMachine feeAboveCeiling) anchor1 [RFee (Some 6000000)]
              6000000 [] H1 eq_refl eq_refl H4)
    as (m' & evs & Hrun & Htr & Hevs & Hsends & Hback & _ & Hstarted & _ & Hfc & _).
  exists m'. split; [unfold executeCrankInstruction; exact Hrun|].
  change (trace (freshMachine feeAboveCeiling) ++ evs) with evs in Htr.
  rewrite Htr. repeat split; assumption.
Defined.

(** C2 as stated fails on invocations whose simulation error is not in the
    first attempt.  First run: the anchor fetch of attempt 1 fails, the
    simulation of attempt 2 reports an error.  The one simulation of the
    invocation reported an error, and [failureCount] went from 0 to 2, not
    to 1.  Second run: attempt 1 is submitted and fails, attempt 2 is
    aborted by the simulation; over the invocation [sendRawTransaction] was
    called once. *)
Lemma simulation_error_after_failed_attempt :
  (exists m',
     executeCrankInstruction PRIMARY_RPC_URL (freshMachine anchorFailureThenRevert)
       = Some (Normal tt, m') /\
     calls CSimulateTransaction (trace m') = 1%nat /\
     In (ELog (LSimulationFailed
                 (Some (ErrObject "{InstructionError:[0,{Custom:6001}]}"))))
        (trace m') /\
     truthy (Some (ErrObject "{InstructionError:[0,{Custom:6001}]}")) = true /\
     failureCount (freshMachine anchorFailureThenRevert) = 0 /\
     failureCount m' = 2 /\
     attemptsStarted (trace m') = 2%nat) /\
  (exists m',
     executeCrankInstruction PRIMARY_RPC_URL (freshMachine revertAfterSendFailure)
       = Some (Normal tt, m') /\
     In (ELog (LSimulationFailed
                 (Some (ErrObject "{InstructionError:[0,{Custom:6001}]}"))))
        (trace m') /\
     sends (trace m') = 1%nat /\
     failureCount m' = 2 /\
     attemptsStarted (trace m') = 2%nat).
Proof.
  split.
  - evaluate_run. eexists. split; [reflexivity|]. split; [reflexivity|].
    split; [vm_compute; find_in|]. repeat split.
  - evaluate_run. eexists. split; [reflexivity|].
    split; [vm_compute; find_in|]. repeat split.
Qed.

(** C2, the amended statement at a first attempt on the scripted ledger. *)
Lemma simulation_error_witness :
  0 < MAX_RETRIES /\
  failureCount (freshMachine simulationReverts) < MAX_EXACT /\
  getLatestBlockhash PRIMARY_RPC_URL (world (freshMachine simulationReverts))
    = (Normal anchor1, [RFee (Some 1000); RSimulation (Some (ErrName "AccountInUse"))]) /\
  getFeeForMessage PRIMARY_RPC_URL (signedTx anchor1)
    [RFee (Some 1000); RSimulation (Some (ErrName "AccountInUse"))]
    = (Normal (Some 1000), [RSimulation (Some (ErrName "AccountInUse"))]) /\
  exceedsCeiling (Some 1000) = false /\
  simulateTransaction PRIMARY_RPC_URL (signedTx anchor1)
    [RSimulation (Some (ErrName "AccountInUse"))]
    = (Normal (Some (ErrName "AccountInUse")), []) /\
  truthy (Some (ErrName "AccountInUse")) = true /\
  exists m',
    executeCrankInstruction PRIMARY_RPC_URL (freshMachine simulationReverts)
      = Some (Normal tt, m') /\
    sends (trace m') = O /\
    attemptsStarted (trace m') = 1%nat /\
    failureCount m' = 1.
Proof.
  assert (H1 : 0 < MAX_RETRIES) by reflexivity.
  assert (H2 : failureCount (freshMachine simulationReverts) < MAX_EXACT) by reflexivity.
  split; [exact H1|]. split; [exact H2|].
  do 5 (split; [reflexivity|]).
  destruct (simulation_error_aborts_invocation (ledger := scriptedLedger)
              5 PRIMARY_RPC_URL 0 1000
              (freshMachine simulationReverts) anchor1
              [RFee (Some 1000); RSimulation (Some (ErrName "AccountInUse"))]
              (Some 1000) [RSimulation (Some (ErrName "AccountInUse"))]
              (Some (ErrName "AccountInUse")) []
              H1 H2 eq_refl eq_refl eq_refl eq_refl eq_refl)
    as (m' & evs & Hrun & Htr & Hevs & Hsends & _ & _ & Hstarted & _ & Hfc & _).
  exists m'. split; [unfold executeCrankInstruction; exact Hrun|].
  change (trace (freshMachine simulationReverts) ++ evs) with evs in Htr.
  rewrite Htr. repeat split; assumption.
Defined.

(** C3 as stated fails on an attempt vetoed for its fee: the wallet has
    signed, although the fee check did not pass and no simulation was
    run. *)
Lemma signed_before_fee_check :
  let m' := snd (tryBlock PRIMARY_RPC_URL 0 (freshMachine feeAboveCeiling)) in
  steps (trace m') = [BUILD; SIGN; FEE_CHECK] /\
  In ESign (trace m') /\
  In (ELog (LGasTooHigh 6000000)) (trace m') /\
  6000000 > MAX_FEE_LAMPORTS /\
  sends (trace m') = O.
Proof.
  vm_compute. repeat split; find_in.
Qed.

(** C10 on the scripted ledger: an attempt without fee estimate goes on to
    the simulation and, the simulation being clean, to the submission. *)
Lemma null_fee_witness :
  getLatestBlockhash PRIMARY_RPC_URL (world (freshMachine noFeeEstimate))
    = (Normal anchor1,
       [RFee None; RSimulation None; RSignature "5VERv8"; RSlot 1000]) /\
  getFeeForMessage PRIMARY_RPC_URL (signedTx anchor1)
    [RFee None; RSimulation None; RSignature "5VERv8"; RSlot 1000]
    = (Normal None, [RSimulation None; RSignature "5VERv8"; RSlot 1000]) /\
  exists evs,
    trace (snd (tryBlock PRIMARY_RPC_URL 0 (freshMachine noFeeEstimate))) =
      [ ELog (LConstructing 1); ERpc PRIMARY_RPC_URL CGetLatestBlockhash; ESign;
        ERpc PRIMARY_RPC_URL CGetFeeForMessage;
        ERpc PRIMARY_RPC_URL CSimulateTransaction;
        ERpc PRIMARY_RPC_URL CSendRawTransaction ] ++ evs.
Proof.
  split; [reflexivity|]. split; [reflexivity|].
  destruct (null_fee_is_not_a_veto (ledger := scriptedLedger)
              PRIMARY_RPC_URL 0 (freshMachine noFeeEstimate)
              anchor1 [RFee None; RSimulation None; RSignature "5VERv8"; RSlot 1000]
              [RSimulation None; RSignature "5VERv8"; RSlot 1000] eq_refl eq_refl)
    as (_ & _ & _ & evs & Htr & Hsend).
  destruct (Hsend None [RSignature "5VERv8"; RSlot 1000] eq_refl eq_refl)
    as (evs' & ->).
  exists evs'. rewrite Htr. reflexivity.
Defined.

(** C5 on three expiry-class failures in a row, from a counter at zero:
    the third one pauses once, for 30000 ms, and resets the counter.  In
    the invocation of five failures, of which the first three are in the
    expiry class, the one pause is the guard's. *)
Lemma third_expiry_witness :
  consecutiveBlockhashErrors (freshMachine ([] : Script)) = 0 /\
  let history := ["block height exceeded"; "BlockhashNotFound"] in
  let msg := "Transaction simulation failed: BlockhashNotFound" in
  let m := afterFailures history (freshMachine ([] : Script)) in
  let m' := snd (blockhashExpiryGuard msg m) in
  isBlockhashExpiry msg = true /\
  trailingExpiry history = 2%nat /\
  consecutiveBlockhashErrors m = 2 /\
  penalties (trace m) = [] /\
  (exists evs,
     trace m' = trace m ++ evs /\
     penalties evs = [30000] /\
     consecutiveBlockhashErrors m' = 0) /\
  (exists after,
     executeCrankInstruction PRIMARY_RPC_URL (freshMachine fiveFailures)
       = Some (Normal tt, after) /\
     caughtMessages (trace after) =
       [ "BlockhashNotFound"; "block height exceeded";
         "Transaction simulation failed: BlockhashNotFound";
         "fetch failed"; "fetch failed" ] /\
     penalties (trace after) =
       penalties (trace (afterFailures (rev (caughtMessages (trace after)))
                           (freshMachine fiveFailures))) /\
     penalties (trace after) = [30000]).
Proof.
  split; [reflexivity|].
  intros history msg m m'.
  destruct (third_consecutive_expiry_pauses_once (ledger := scriptedLedger) history msg
              (freshMachine ([] : Script)) eq_refl)
    as (Hc & (evs & Htr & Hthird & _ & _) & Hexec).
  destruct (Hthird eq_refl eq_refl) as (_ & Hp & Hz).
  split; [reflexivity|]. split; [reflexivity|].
  split; [exact Hc|]. split; [reflexivity|].
  split; [exists evs; repeat split; assumption|].
  destruct (Hexec PRIMARY_RPC_URL (freshMachine fiveFailures))
    as (after & evs' & Hrun & Htr' & Hpauses & _).
  exists after. split; [exact Hrun|].
  change (trace (freshMachine fiveFailures) ++ evs') with evs' in Htr'.
  rewrite <- Htr' in Hpauses.
  assert (Hafter : Some (Normal tt, after) =
                   executeCrankInstruction PRIMARY_RPC_URL (freshMachine fiveFailures))
    by (symmetry; exact Hrun).
  vm_compute in Hafter. injection Hafter as Hafter.
  split; [rewrite Hafter; reflexivity|].
  split; [exact Hpauses|].
  rewrite Hafter. reflexivity.
Defined.

(** C6 on five failed attempts on the scripted ledger: the critical error
    is logged and [failureCount] goes from 0 to 5. *)
Lemma exhausted_budget_witness :
  failureCount (freshMachine fiveFailures) + 5 <= MAX_EXACT /\
  exists m',
    executeCrankInstruction PRIMARY_RPC_URL (freshMachine fiveFailures)
      = Some (Normal tt, m') /\
    caughtFailures (trace m') = 5%nat /\
    In (ELog LCriticalError) (trace m') /\
    failureCount m' = failureCount (freshMachine fiveFailures) + 5 /\
    penalties (trace m') = [30000] /\
    backoffs (trace m') = [1000; 2000; 4000; 8000].
Proof.
  assert (Hsafe : failureCount (freshMachine fiveFailures) + 5 <= MAX_EXACT)
    by (unfold MAX_EXACT; simpl; lia).
  split; [exact Hsafe|].
  destruct (exhausted_budget_returns_normally (ledger := scriptedLedger) PRIMARY_RPC_URL
              (freshMachine fiveFailures) Hsafe) as (m' & Hrun & Hall).
  exists m'. split; [exact Hrun|].
  assert (Hm' : Some (Normal tt, m') =
                executeCrankInstruction PRIMARY_RPC_URL (freshMachine fiveFailures))
    by (symmetry; exact Hrun).
  vm_compute in Hm'. injection Hm' as Hm'.
  assert (Hfive : caughtFailures (trace m') = 5%nat) by (rewrite Hm'; reflexivity).
  destruct (Hall (trace m') eq_refl) as (_ & Hcrit & Hfc).
  split; [exact Hfive|]. split; [exact (proj1 Hcrit Hfive)|].
  split; [exact (Hfc Hfive)|].
  rewrite Hm'. split; reflexivity.
Defined.

(** C8 as stated fails when no key is provided.  The environment sets the
    program id to an address the SDK accepts and sets no
    [CRANK_KEYPAIR_JSON], so no usable key is provided.  Start-up is not
    fatal: [loop()] is called with a generated keypair, after the warning.
    The same holds for a variable set to the empty text. *)
Lemma startup_without_key_calls_loop :
  startModule (addresses := exampleAddresses) (runtime := exampleRuntime)
      programIdOnly =
    CallsLoop systemProgram systemProgram systemProgram exampleGenerated true /\
  fatal (startModule (addresses := exampleAddresses) (runtime := exampleRuntime)
           programIdOnly) = false /\
  env_CRANK_KEYPAIR_JSON programIdOnly = None /\
  startModule (addresses := exampleAddresses) (runtime := exampleRuntime)
      {| env_PERCOLATOR_PROGRAM_ID := Some systemProgram;
         env_PERCOLATOR_SLAB := None;
         env_ORACLE_ACCOUNT := None;
         env_CRANK_KEYPAIR_JSON := Some "" |} =
    CallsLoop systemProgram systemProgram systemProgram exampleGenerated true /\
  ~ providesUsableKey (runtime := exampleRuntime) None /\
  ~ providesUsableKey (runtime := exampleRuntime) (Some "").
Proof.
  split; [vm_compute; reflexivity|]. split; [vm_compute; reflexivity|].
  split; [reflexivity|]. split; [vm_compute; reflexivity|].
  split; intros (arr & kp & Hparse & Hlen & _);
    injection Hparse as <-; discriminate Hlen.
Qed.

(** With nothing set, start-up never reaches the wallet: the default of
    [PERCOLATOR_PROGRAM_ID] holds the character [0], which is no base58
    digit, and the exception thrown at line 25 ends the process.  A usable
    key changes nothing to that. *)
Example default_program_id_ends_startup :
  startModule (addresses := exampleAddresses) (runtime := exampleRuntime)
      emptyEnv =
    UncaughtException {| message := "Non-base58 character" |} /\
  exitCode (startModule (addresses := exampleAddresses) (runtime := exampleRuntime)
              emptyEnv) = Some 1 /\
  forall key,
    startModule (addresses := exampleAddresses) (runtime := exampleRuntime)
        {| env_PERCOLATOR_PROGRAM_ID := None;
           env_PERCOLATOR_SLAB := None;
           env_ORACLE_ACCOUNT := None;
           env_CRANK_KEYPAIR_JSON := key |} =
      UncaughtException {| message := "Non-base58 character" |}.
Proof.
  split; [vm_compute; reflexivity|]. split; [vm_compute; reflexivity|].
  intros key. vm_compute. reflexivity.
Qed.

(** Rejected key material ends start-up at line 41 once the addresses are
    accepted. *)
Example rejected_key_ends_startup :
  startModule (addresses := exampleAddresses) (runtime := exampleRuntime)
      {| env_PERCOLATOR_PROGRAM_ID := Some systemProgram;
         env_PERCOLATOR_SLAB := None;
         env_ORACLE_ACCOUNT := None;
         env_CRANK_KEYPAIR_JSON := Some "not json" |} = Exits 1 /\
  startModule (addresses := exampleAddresses) (runtime := exampleRuntime)
      {| env_PERCOLATOR_PROGRAM_ID := Some systemProgram;
         env_PERCOLATOR_SLAB := None;
         env_ORACLE_ACCOUNT := None;
         env_CRANK_KEYPAIR_JSON := Some "[1,2,3]" |} = Exits 1.
Proof. split; vm_compute; reflexivity. Qed.

(** Rejected key material on the example runtime: malformed text, and an
    array that is not a secret key, end start-up with exit code 1. *)
Example startup_rejected_key_exits :
  loadCrankWallet (runtime := exampleRuntime) (Some "not json") = ProcessExit 1 /\
  loadCrankWallet (runtime := exampleRuntime) (Some "[1,2,3]") = ProcessExit 1.
Proof. split; reflexivity. Qed.

(** C9 as stated fails on a failure outside the expiry class.  Two
    invocations in a row.  The first ends with the counter at 1 (one
    expiry-class failure, then a fee veto).  The second handles a failure
    of another class and ends with the counter at 0, although the whole
    trace holds neither a success nor a penalty pause. *)
Lemma counter_reset_by_other_failure :
  exists m1 m2,
    executeCrankInstruction PRIMARY_RPC_URL
      (freshMachine (expiryThenVeto ++ otherThenVeto)) = Some (Normal tt, m1) /\
    consecutiveBlockhashErrors m1 = 1 /\
    executeCrankInstruction PRIMARY_RPC_URL m1 = Some (Normal tt, m2) /\
    consecutiveBlockhashErrors m2 = 0 /\
    existsb isSuccess (trace m2) = false /\
    existsb isPenaltyPause (trace m2) = false /\
    sends (trace m2) = O /\
    penalties (trace m2) = [] /\
    In (ELog (LCrankFailed "fetch failed")) (trace m2).
Proof.
  evaluate_run. eexists. eexists. split; [reflexivity|].
  split; [reflexivity|].
  evaluate_run. split; [reflexivity|].
  split; [reflexivity|]. split; [reflexivity|]. split; [reflexivity|].
  split; [reflexivity|]. split; [reflexivity|].
  vm_compute; find_in.
Qed.

(** When no endpoint answers, [getConnectionWithFailover] still returns:
    the fallback, which it has not probed. *)
Example failover_returns_unprobed_fallback :
  getConnectionWithFailover (freshMachine [RThrow "fetch failed"]) =
    (Normal FALLBACK_RPC_URL,
     Build_Machine [] 0 0 0 0
       [ERpc PRIMARY_RPC_URL CGetSlot; ELog (LPrimaryFailed "fetch failed")]).
Proof. reflexivity. Qed.

(** A simulation-reported error is not a caught failure: after one
    expiry-class failure it ends the invocation and leaves the expiry
    counter at 1. *)
Example simulation_error_keeps_counter :
  exists m',
    executeCrankInstruction PRIMARY_RPC_URL
      (freshMachine
         [ RThrow "BlockhashNotFound"; RSlot 7; RAnchor anchor1; RFee (Some 1000);
           RSimulation (Some (ErrName "AccountInUse")) ])
      = Some (Normal tt, m') /\
    consecutiveBlockhashErrors m' = 1 /\
    caughtFailures (trace m') = 1%nat /\
    failureCount m' = 2.
Proof.
  evaluate_run. eexists. split; [reflexivity|]. repeat split.
Qed.

(** Scenario A of the specification: fee estimate 1000, clean simulation,
    submission accepted at the first attempt, slot 1000. *)
Example first_attempt_success :
  executeCrankInstruction PRIMARY_RPC_URL
    (freshMachine
       [ RAnchor anchor1; RFee (Some 1000); RSimulation None;
         RSignature "5VERv8"; RSlot 1000 ])
    = Some (Normal tt,
            Build_Machine [] 1 0 1000 0
              [ ELog (LConstructing 1);
                ERpc PRIMARY_RPC_URL CGetLatestBlockhash; ESign;
                ERpc PRIMARY_RPC_URL CGetFeeForMessage;
                ERpc PRIMARY_RPC_URL CSimulateTransaction;
                ERpc PRIMARY_RPC_URL CSendRawTransaction;
                ELog (LSuccess "5VERv8");
                ERpc PRIMARY_RPC_URL CGetSlot;
                ELog (LMetrics 1 0 1000) ]).
Proof. vm_compute. reflexivity. Qed.

(** * Further properties of the executor *)

Section ExecutorFacts.

Context {W : Type} {ledger : LedgerClient W}.

Lemma simulationAborts_app evs1 evs2 :
  simulationAborts (evs1 ++ evs2) = (simulationAborts evs1 + simulationAborts evs2)%nat.
Proof.
  induction evs1 as [|e evs1 IH]; simpl; [reflexivity|].
  destruct e as [ | |l|]; try exact IH.
  destruct l; simpl; rewrite ?IH; reflexivity.
Qed.

(** The RPC calls of one run of the [try] block: one anchor fetch, and each
    later call only after the one before it. *)
Lemma tryBlock_calls connection attempts (m : Machine W) r m' evs :
  tryBlock connection attempts m = (r, m') ->
  trace m' = trace m ++ evs ->
  calls CGetLatestBlockhash evs = 1%nat /\
  (calls CGetFeeForMessage evs <= 1)%nat /\
  (calls CSimulateTransaction evs <= calls CGetFeeForMessage evs)%nat /\
  (calls CSendRawTransaction evs <= calls CSimulateTransaction evs)%nat /\
  (calls CGetSlot evs <= calls CSendRawTransaction evs)%nat.
Proof.
  unfold_bot. simpl.
  repeat case_step; intros H; inversion H; subst; clear H; simpl;
    rewrite <- ?app_assoc; intros Htr; apply app_inv_head in Htr; subst evs;
    simpl; repeat split; lia.
Qed.

(** The [catch] block calls no RPC method but the probe of the failover. *)
Lemma catchBlock_calls e connection attempts delay (m : Machine W) r m' evs :
  catchBlock e connection attempts delay m = (r, m') ->
  trace m' = trace m ++ evs ->
  calls CGetLatestBlockhash evs = O /\
  calls CGetFeeForMessage evs = O /\
  calls CSimulateTransaction evs = O /\
  calls CSendRawTransaction evs = O /\
  (calls CGetSlot evs <= 1)%nat.
Proof.
  unfold_bot. simpl.
  repeat case_step; intros H; inversion H; subst; clear H; simpl;
    rewrite <- ?app_assoc; intros Htr; apply app_inv_head in Htr; subst evs;
    simpl; repeat split; lia.
Qed.

Lemma whileLoop_calls fuel connection attempts delay (m : Machine W) r m' :
  whileLoop fuel connection attempts delay m = Some (r, m') ->
  exists evs,
    trace m' = trace m ++ evs /\
    calls CGetLatestBlockhash evs = attemptsStarted evs /\
    (calls CGetFeeForMessage evs <= calls CGetLatestBlockhash evs)%nat /\
    (calls CSimulateTransaction evs <= calls CGetFeeForMessage evs)%nat /\
    (calls CSendRawTransaction evs <= calls CSimulateTransaction evs)%nat.
Proof.
  revert fuel connection attempts delay m r m'.
  apply (whileLoop_run_ind (fun _ _ m m' =>
    exists evs,
      trace m' = trace m ++ evs /\
      calls CGetLatestBlockhash evs = attemptsStarted evs /\
      (calls CGetFeeForMessage evs <= calls CGetLatestBlockhash evs)%nat /\
      (calls CSimulateTransaction evs <= calls CGetFeeForMessage evs)%nat /\
      (calls CSendRawTransaction evs <= calls CSimulateTransaction evs)%nat)).
  - intros _ _ m _. exists []. rewrite app_nil_r. simpl. repeat split; lia.
  - intros connection attempts _ m x m1 _ Htry.
    destruct (tryBlock_run _ _ _ _ _ Htry) as (evs & Htr & _ & _ & _ & Hs & _).
    destruct (tryBlock_calls _ _ _ _ _ _ Htry Htr) as (Ha & Hf & Hsim & Hsend & _).
    exists evs. rewrite Hs. repeat split; try assumption; lia.
  - intros connection attempts delay m e m1 connection' m2 m' _ Htry Hcatch
      (evs3 & Htr3 & Ha3 & Hf3 & Hsim3 & Hsend3).
    destruct (tryBlock_run _ _ _ _ _ Htry) as (evs1 & Htr1 & _ & _ & _ & Hs1 & _).
    destruct (tryBlock_calls _ _ _ _ _ _ Htry Htr1) as (Ha1 & Hf1 & Hsim1 & Hsend1 & _).
    destruct (catchBlock_spec e connection attempts delay m1)
      as (c2 & m2' & Hcatch' & _ & _ & _ & _ & evs2 & Htr2 & _ & Hs2 & _).
    rewrite Hcatch in Hcatch'. injection Hcatch' as _ <-.
    destruct (catchBlock_calls _ _ _ _ _ _ _ _ Hcatch Htr2)
      as (Ha2 & Hf2 & Hsim2 & Hsend2 & _).
    exists (evs1 ++ evs2 ++ evs3).
    split; [rewrite Htr3, Htr2, Htr1, <- !app_assoc; reflexivity|].
    rewrite !calls_app, !attemptsStarted_app.
    repeat split; lia.
Qed.

(** *** What the endpoints receive *)

Lemma carries_signedTx anchor : carries anchor (signedTx anchor) = true.
Proof.
  unfold carries, signedTx. simpl.
  rewrite String.eqb_refl, Z.eqb_refl. reflexivity.
Qed.

Lemma fetches_app seen1 seen2 :
  fetches (seen1 ++ seen2) = (fetches seen1 + fetches seen2)%nat.
Proof.
  induction seen1 as [|o seen1 IH]; simpl; [reflexivity|].
  destruct o; simpl; rewrite ?IH; reflexivity.
Qed.

Lemma received_app call seen1 seen2 :
  received call (seen1 ++ seen2) = received call seen1 ++ received call seen2.
Proof.
  induction seen1 as [|o seen1 IH]; simpl; [reflexivity|].
  destruct o as [answer|call' tx answered]; simpl; [exact IH|].
  destruct (sameCall call call'); simpl; rewrite IH; reflexivity.
Qed.

(** A record that is fresh from no anchor at hand is fresh from any, and
    fresh records compose. *)
Lemma anchorsFresh_any current seen :
  anchorsFresh None seen = true -> anchorsFresh current seen = true.
Proof.
  destruct seen as [|o seen]; simpl; [reflexivity|].
  destruct o; [intros H; exact H | intros H; discriminate H].
Qed.

Lemma anchorsFresh_app seen2 : forall seen1 current,
  anchorsFresh current seen1 = true ->
  anchorsFresh None seen2 = true ->
  anchorsFresh current (seen1 ++ seen2) = true.
Proof.
  induction seen1 as [|o seen1 IH]; intros current H1 H2; simpl.
  - apply anchorsFresh_any. exact H2.
  - destruct o as [answer|call tx answered]; simpl in H1.
    + apply IH; assumption.
    + destruct current as [anchor|]; [|discriminate H1].
      apply andb_true_iff in H1. destruct H1 as [Hc H1].
      rewrite Hc. simpl. apply IH; assumption.
Qed.

(** One run of the [try] block on the recording ledger is the run on the
    ledger itself, and records one fetch followed by the transactions of
    this attempt, each carrying the anchor just fetched. *)
Lemma tryBlock_recorded connection attempts (m : Machine W) seen0 :
  exists seen,
    tryBlock (ledger := recordingLedger ledger) connection attempts
        (recording seen0 m) =
      (fst (tryBlock connection attempts m),
       recording (seen0 ++ seen) (snd (tryBlock connection attempts m))) /\
    anchorsFresh None seen = true /\
    fetches seen = 1%nat /\
    forall evs,
      trace (snd (tryBlock connection attempts m)) = trace m ++ evs ->
      List.length (received CGetFeeForMessage seen) = calls CGetFeeForMessage evs /\
      List.length (received CSimulateTransaction seen) = calls CSimulateTransaction evs /\
      List.length (received CSendRawTransaction seen) = calls CSendRawTransaction evs.
Proof.
  unfold_bot. unfold recordingLedger, recording. cbn.
  repeat case_step;
    (eexists; split;
     [rewrite <- ?app_assoc; reflexivity
     |cbn; unfold carries; cbn; rewrite ?String.eqb_refl, ?Z.eqb_refl; cbn;
      split; [reflexivity|]; split; [reflexivity|];
      intros evs Htr; rewrite <- ?app_assoc in Htr;
      apply app_inv_head in Htr; subst evs; cbn; repeat split; reflexivity]).
Qed.

(** The [catch] block passes no transaction and fetches no anchor. *)
Lemma catchBlock_recorded e connection attempts delay (m : Machine W) seen :
  catchBlock (ledger := recordingLedger ledger) e connection attempts delay
      (recording seen m) =
    (fst (catchBlock e connection attempts delay m),
     recording seen (snd (catchBlock e connection attempts delay m))).
Proof.
  unfold_bot. unfold recordingLedger, recording. cbn.
  repeat case_step; reflexivity.
Qed.

Lemma whileLoop_recorded : forall fuel connection attempts delay (m : Machine W) r m' seen0,
  whileLoop fuel connection attempts delay m = Some (r, m') ->
  exists evs seen,
    whileLoop (ledger := recordingLedger ledger) fuel connection attempts delay
        (recording seen0 m) = Some (r, recording (seen0 ++ seen) m') /\
    trace m' = trace m ++ evs /\
    anchorsFresh None seen = true /\
    fetches seen = attemptsStarted evs /\
    List.length (received CGetFeeForMessage seen) = calls CGetFeeForMessage evs /\
    List.length (received CSimulateTransaction seen) = calls CSimulateTransaction evs /\
    List.length (received CSendRawTransaction seen) = calls CSendRawTransaction evs.
Proof.
  induction fuel as [|fuel IH]; intros connection attempts delay m r m' seen0 H.
  - discriminate H.
  - rewrite whileLoop_unfold in H. rewrite whileLoop_unfold.
    destruct (Z.ltb_spec attempts MAX_RETRIES) as [Hlt|Hge].
    + destruct (tryBlock_recorded connection attempts m seen0)
        as (seen1 & Hrec & Hfresh1 & Hfetch1 & Hcount1).
      rewrite Hrec.
      destruct (tryBlock connection attempts m) as [[x|e] m1] eqn:Htry;
        cbn [fst snd] in *.
      * injection H as <- <-.
        destruct (tryBlock_run _ _ _ _ _ Htry) as (evs & Htr & _ & _ & _ & Hs & _).
        destruct (Hcount1 evs Htr) as (Hf & Hsim & Hsend).
        exists evs, seen1. rewrite Hs.
        repeat split; assumption.
      * destruct (tryBlock_run _ _ _ _ _ Htry) as (evs1 & Htr1 & _ & _ & _ & Hs1 & _).
        destruct (Hcount1 evs1 Htr1) as (Hf1 & Hsim1 & Hsend1).
        rewrite catchBlock_recorded.
        destruct (catchBlock_spec e connection attempts delay m1)
          as (c2 & m2 & Hcatch & _ & _ & _ & _ & evs2 & Htr2 & _ & Hs2 & _).
        destruct (catchBlock_calls _ _ _ _ _ _ _ _ Hcatch Htr2)
          as (_ & Hf2 & Hsim2 & Hsend2 & _).
        rewrite Hcatch in H. rewrite Hcatch. cbn [fst snd].
        destruct (IH _ _ _ _ _ _ (seen0 ++ seen1) H)
          as (evs3 & seen3 & Hrun3 & Htr3 & Hfresh3 & Hfetch3 & Hf3 & Hsim3 & Hsend3).
        exists (evs1 ++ evs2 ++ evs3), (seen1 ++ seen3).
        split; [rewrite Hrun3, <- app_assoc; reflexivity|].
        split; [rewrite Htr3, Htr2, Htr1, <- !app_assoc; reflexivity|].
        split; [apply anchorsFresh_app; assumption|].
        rewrite fetches_app, !received_app, !length_app, !attemptsStarted_app, !calls_app.
        repeat split; lia.
    + injection H as <- <-.
      exists [], []. rewrite !app_nil_r. repeat split; reflexivity.
Qed.

(** X1.  Every transaction that reaches an endpoint carries the anchor of
    its own attempt.  Run the invocation on any ledger, and let the ledger
    record what [getLatestBlockhash] answers and which transactions the fee
    query, the simulation and the submission are given.  The run is the
    same with and without the record.  In the record, every transaction is
    signed and carries the blockhash and last valid block height answered
    by the latest fetch before it; no transaction follows a fetch that
    threw, a call that threw or a submission before the next fetch, so an
    anchor does not outlive its attempt.  There is
    one fetch per attempt started, between one and five attempts are
    started, and the record holds one transaction for each fee query,
    simulation and submission of the trace. *)
Theorem fresh_anchor_every_attempt connection (m : Machine W) seen0 :
  exists m' evs seen,
    executeCrankInstruction connection m = Some (Normal tt, m') /\
    executeCrankInstruction (ledger := recordingLedger ledger) connection
        (recording seen0 m) = Some (Normal tt, recording (seen0 ++ seen) m') /\
    trace m' = trace m ++ evs /\
    anchorsFresh None seen = true /\
    fetches seen = attemptsStarted evs /\
    calls CGetLatestBlockhash evs = attemptsStarted evs /\
    (1 <= attemptsStarted evs <= 5)%nat /\
    List.length (received CGetFeeForMessage seen) = calls CGetFeeForMessage evs /\
    List.length (received CSimulateTransaction seen) = calls CSimulateTransaction evs /\
    List.length (received CSendRawTransaction seen) = sends evs.
Proof.
  destruct (executeCrankInstruction_total connection m) as (m' & Hrun).
  destruct (whileLoop_recorded _ _ _ _ _ _ _ seen0 Hrun)
    as (evs & seen & Hrec & Htr & Hfresh & Hfetch & Hf & Hsim & Hsend).
  destruct (whileLoop_calls _ _ _ _ _ _ _ Hrun) as (evs1 & Htr1 & Ha & _).
  rewrite Htr in Htr1. apply app_inv_head in Htr1. subst evs1.
  destruct (whileLoop_backoffs _ _ _ _ _ _ _ Hrun)
    as (evs' & k & Htr' & _ & Hs & _ & Hk).
  rewrite Htr in Htr'. apply app_inv_head in Htr'. subst evs'.
  assert (Hlt : 0 < MAX_RETRIES) by (unfold MAX_RETRIES; lia).
  specialize (Hs Hlt). specialize (Hk Hlt). unfold MAX_RETRIES in Hk.
  exists m', evs, seen. unfold sends.
  repeat split; try assumption; lia.
Qed.

(** X2.  Nothing is submitted unchecked: over an invocation there are at
    most as many [sendRawTransaction] calls as simulations, at most as many
    simulations as fee queries, and at most as many fee queries as anchor
    fetches; so at most five transactions are submitted. *)
Theorem no_submission_without_checks connection (m : Machine W) :
  exists m' evs,
    executeCrankInstruction connection m = Some (Normal tt, m') /\
    trace m' = trace m ++ evs /\
    (sends evs <= calls CSimulateTransaction evs)%nat /\
    (calls CSimulateTransaction evs <= calls CGetFeeForMessage evs)%nat /\
    (calls CGetFeeForMessage evs <= calls CGetLatestBlockhash evs)%nat /\
    (sends evs <= 5)%nat.
Proof.
  destruct (executeCrankInstruction_total connection m) as (m' & Hrun).
  destruct (whileLoop_calls _ _ _ _ _ _ _ Hrun)
    as (evs & Htr & Ha & Hf & Hsim & Hsend).
  destruct (whileLoop_backoffs _ _ _ _ _ _ _ Hrun)
    as (evs' & k & Htr' & _ & Hs & _ & Hk).
  rewrite Htr in Htr'. apply app_inv_head in Htr'. subst evs'.
  assert (Hlt : 0 < MAX_RETRIES) by (unfold MAX_RETRIES; lia).
  specialize (Hs Hlt). specialize (Hk Hlt). unfold MAX_RETRIES in Hk.
  exists m', evs. unfold sends. repeat split; try assumption; lia.
Qed.

(** X3.  A success is recorded in full.  Take any attempt in which the fee
    check passes, the simulation reports no error, the submission is
    accepted and the slot read that follows answers [slot].  Then the
    invocation returns in that attempt with [successCount] one higher (as
    long as it is below [2^53]), [lastSuccessSlot] equal to [slot],
    [consecutiveBlockhashErrors] at zero and [failureCount] untouched; one
    transaction was sent and nothing was waited for. *)
Theorem accepted_submission_records_success
    fuel connection attempts delay (m : Machine W)
    anchor w1 value w2 err w3 sig w4 slot w5 :
  attempts < MAX_RETRIES ->
  successCount m < MAX_EXACT ->
  getLatestBlockhash connection (world m) = (Normal anchor, w1) ->
  getFeeForMessage connection (signedTx anchor) w1 = (Normal value, w2) ->
  exceedsCeiling value = false ->
  simulateTransaction connection (signedTx anchor) w2 = (Normal err, w3) ->
  truthy err = false ->
  sendRawTransaction connection (signedTx anchor) w3 = (Normal sig, w4) ->
  getSlot connection w4 = (Normal slot, w5) ->
  exists m' evs,
    whileLoop (S fuel) connection attempts delay m = Some (Normal tt, m') /\
    trace m' = trace m ++ evs /\
    evs = [ ELog (LConstructing (attempts + 1));
            ERpc connection CGetLatestBlockhash; ESign;
            ERpc connection CGetFeeForMessage;
            ERpc connection CSimulateTransaction;
            ERpc connection CSendRawTransaction;
            ELog (LSuccess sig);
            ERpc connection CGetSlot;
            ELog (LMetrics (successCount m + 1) (failureCount m) slot) ] /\
    sends evs = 1%nat /\ totalWait evs = 0 /\
    successCount m' = successCount m + 1 /\
    lastSuccessSlot m' = slot /\
    consecutiveBlockhashErrors m' = 0 /\
    failureCount m' = failureCount m /\
    world m' = w5.
Proof.
  intros Hlt Hsafe Hanchor Hfee Hpass Hsim Hclean Hsend Hslot.
  rewrite whileLoop_unfold.
  destruct (Z.ltb_spec attempts MAX_RETRIES) as [_|Hge]; [|lia].
  unfold_bot. unfold signedTx in Hfee, Hsim, Hsend. simpl.
  rewrite Hanchor. simpl. rewrite Hfee. simpl. rewrite Hpass. simpl.
  rewrite Hsim. simpl. rewrite Hclean. simpl. rewrite Hsend. simpl.
  rewrite Hslot. simpl. rewrite (js_incr_exact _ Hsafe).
  do 2 eexists. split; [reflexivity|]. simpl.
  split; [tidy_trace; reflexivity|].
  repeat split; reflexivity.
Qed.

(** X4.  An accepted submission is not the end of an attempt: when the slot
    read after it throws, the attempt is handled as a failure.  The success
    is logged but not counted, [failureCount] grows by one, the backoff is
    waited, and the loop goes on with the next attempt, which builds and may
    submit a second transaction in the same invocation. *)
Theorem slot_read_failure_after_submission_is_retried
    fuel connection attempts delay (m : Machine W)
    anchor w1 value w2 err w3 sig w4 e w5 :
  attempts + 1 < MAX_RETRIES ->
  failureCount m < MAX_EXACT ->
  getLatestBlockhash connection (world m) = (Normal anchor, w1) ->
  getFeeForMessage connection (signedTx anchor) w1 = (Normal value, w2) ->
  exceedsCeiling value = false ->
  simulateTransaction connection (signedTx anchor) w2 = (Normal err, w3) ->
  truthy err = false ->
  sendRawTransaction connection (signedTx anchor) w3 = (Normal sig, w4) ->
  getSlot connection w4 = (Throw e, w5) ->
  exists connection' m2 evs,
    whileLoop (S fuel) connection attempts delay m =
      whileLoop fuel connection' (attempts + 1) (delay * 2) m2 /\
    trace m2 = trace m ++ evs /\
    sends evs = 1%nat /\
    existsb isSuccess evs = true /\
    caughtMessages evs = [message e] /\
    backoffs evs = [delay] /\
    successCount m2 = successCount m /\
    lastSuccessSlot m2 = lastSuccessSlot m /\
    failureCount m2 = failureCount m + 1.
Proof.
  intros Hlt Hsafe Hanchor Hfee Hpass Hsim Hclean Hsend Hslot.
  rewrite whileLoop_unfold.
  destruct (Z.ltb_spec attempts MAX_RETRIES) as [_|Hge]; [|lia].
  destruct (tryBlock connection attempts m) as [r m1] eqn:Htry.
  assert (Hshape :
    r = Throw e /\
    successCount m1 = successCount m /\
    failureCount m1 = failureCount m /\
    lastSuccessSlot m1 = lastSuccessSlot m /\
    trace m1 = trace m ++
      [ ELog (LConstructing (attempts + 1));
        ERpc connection CGetLatestBlockhash; ESign;
        ERpc connection CGetFeeForMessage;
        ERpc connection CSimulateTransaction;
        ERpc connection CSendRawTransaction;
        ELog (LSuccess sig);
        ERpc connection CGetSlot ]).
  { revert Htry. unfold_bot. unfold signedTx in Hfee, Hsim, Hsend. simpl.
    rewrite Hanchor. simpl. rewrite Hfee. simpl. rewrite Hpass. simpl.
    rewrite Hsim. simpl. rewrite Hclean. simpl. rewrite Hsend. simpl.
    rewrite Hslot. simpl. intros H. injection H as <- <-. simpl.
    repeat split; try reflexivity. tidy_trace. reflexivity. }
  destruct Hshape as (-> & Hsc1 & Hfc1 & Hls1 & Htr1).
  destruct (catchBlock_spec e connection attempts delay m1)
    as (c2 & m2 & Hcatch & Hsc2 & Hfc2 & Hls2 & _ & evs2 & Htr2 & _ & _ & Hs2 & Hok2
        & _ & _ & _ & Hb2 & _).
  rewrite Hcatch.
  pose proof (catchBlock_messages _ _ _ _ _ _ _ _ Hcatch Htr2) as Hmsg2.
  assert (Ha : attempts < MAX_RETRIES) by lia.
  rewrite (js_incr_attempts _ Ha) in *.
  destruct (Z.geb_spec (attempts + 1) MAX_RETRIES) as [Hlast|_]; [lia|].
  rewrite js_incr_exact in Hfc2 by lia.
  eexists c2, m2, _.
  split; [reflexivity|].
  split; [rewrite Htr2, Htr1, <- app_assoc; reflexivity|].
  unfold sends in *.
  rewrite calls_app, existsb_app, caughtMessages_app, backoffs_app, Hs2, Hmsg2, Hb2.
  repeat split; try reflexivity; lia.
Qed.

Lemma tryBlock_metrics connection attempts (m : Machine W) r m' evs :
  tryBlock connection attempts m = (r, m') ->
  trace m' = trace m ++ evs ->
  (simulationAborts evs <= 1)%nat /\
  (failureCount m' = failureCount m /\ simulationAborts evs = O \/
   failureCount m' = js_incr (failureCount m) /\ simulationAborts evs = 1%nat) /\
  match r with
  | Throw _ => simulationAborts evs = O
  | Normal _ =>
      (successCount m' = successCount m /\
       lastSuccessSlot m' = lastSuccessSlot m) \/
      (successCount m' = js_incr (successCount m) /\
       consecutiveBlockhashErrors m' = 0 /\
       failureCount m' = failureCount m /\
       existsb isSuccess evs = true /\
       calls CSendRawTransaction evs = 1%nat)
  end.
Proof.
  unfold_bot. simpl.
  repeat case_step; intros H; inversion H; subst; clear H; simpl;
    rewrite <- ?app_assoc; intros Htr; apply app_inv_head in Htr; subst evs;
    simpl; repeat split; auto 8.
Qed.

Lemma catchBlock_no_abort e connection attempts delay (m : Machine W) r m' evs :
  catchBlock e connection attempts delay m = (r, m') ->
  trace m' = trace m ++ evs ->
  simulationAborts evs = O.
Proof.
  unfold_bot. simpl.
  repeat case_step; intros H; inversion H; subst; clear H; simpl;
    rewrite <- ?app_assoc; intros Htr; apply app_inv_head in Htr; subst evs;
    reflexivity.
Qed.

Lemma whileLoop_failure_accounting fuel connection attempts delay (m : Machine W) r m' :
  whileLoop fuel connection attempts delay m = Some (r, m') ->
  failureCount m + (MAX_RETRIES - attempts) <= MAX_EXACT ->
  exists evs,
    trace m' = trace m ++ evs /\
    (simulationAborts evs <= 1)%nat /\
    Z.of_nat (caughtFailures evs + simulationAborts evs) <= Z.max 0 (MAX_RETRIES - attempts) /\
    failureCount m' =
      failureCount m + Z.of_nat (caughtFailures evs + simulationAborts evs).
Proof.
  revert fuel connection attempts delay m r m'.
  apply (whileLoop_run_ind (fun attempts _ m m' =>
    failureCount m + (MAX_RETRIES - attempts) <= MAX_EXACT ->
    exists evs,
      trace m' = trace m ++ evs /\
      (simulationAborts evs <= 1)%nat /\
      Z.of_nat (caughtFailures evs + simulationAborts evs)
        <= Z.max 0 (MAX_RETRIES - attempts) /\
      failureCount m' =
        failureCount m + Z.of_nat (caughtFailures evs + simulationAborts evs))).
  - intros attempts _ m Hge _. exists []. rewrite app_nil_r. simpl.
    repeat split; lia.
  - intros connection attempts _ m x m1 Hlt Htry Hsafe.
    destruct (tryBlock_run _ _ _ _ _ Htry) as (evs & Htr & _ & _ & Hf & _).
    destruct (tryBlock_metrics _ _ _ _ _ _ Htry Htr) as (Hle & Hfc & _).
    exists evs. rewrite Hf.
    split; [exact Htr|]. split; [exact Hle|].
    destruct Hfc as [[-> ->]|[-> ->]].
    + split; lia.
    + rewrite js_incr_exact by lia. split; lia.
  - intros connection attempts delay m e m1 connection' m2 m' Hlt Htry Hcatch IH Hsafe.
    destruct (tryBlock_run _ _ _ _ _ Htry)
      as (evs1 & Htr1 & _ & _ & Hf1 & _ & _ & _ & _ & Hfc1 & _).
    destruct (tryBlock_metrics _ _ _ _ _ _ Htry Htr1) as (_ & _ & Ha1).
    destruct (catchBlock_spec e connection attempts delay m1)
      as (c2 & m2' & Hcatch' & _ & Hfc2 & _ & _ & evs2 & Htr2 & Hf2 & _).
    rewrite Hcatch in Hcatch'. injection Hcatch' as _ <-.
    pose proof (catchBlock_no_abort _ _ _ _ _ _ _ _ Hcatch Htr2) as Ha2.
    rewrite (js_incr_attempts _ Hlt) in *.
    rewrite js_incr_exact in Hfc2 by lia.
    destruct IH as (evs3 & Htr3 & Hone3 & Hbound3 & Hfc3); [lia|].
    exists (evs1 ++ evs2 ++ evs3).
    split; [rewrite Htr3, Htr2, Htr1, <- !app_assoc; reflexivity|].
    rewrite !caughtFailures_app, !simulationAborts_app, Hf1, Hf2, Ha1, Ha2.
    split; [lia|]. split; lia.
Qed.

(** X5.  [failureCount] counts two things and nothing else: over an
    invocation it grows by the number of failures the [catch] block handled
    plus the number of attempts the simulation aborted (at most one, the
    last), five at most in total, as long as it stays within [2^53]. *)
Theorem failureCount_counts_caught_and_aborted connection (m : Machine W) :
  failureCount m + 5 <= MAX_EXACT ->
  exists m' evs,
    executeCrankInstruction connection m = Some (Normal tt, m') /\
    trace m' = trace m ++ evs /\
    failureCount m' =
      failureCount m + Z.of_nat (caughtFailures evs) + Z.of_nat (simulationAborts evs) /\
    (caughtFailures evs + simulationAborts evs <= 5)%nat /\
    (simulationAborts evs <= 1)%nat.
Proof.
  intros Hsafe.
  destruct (executeCrankInstruction_total connection m) as (m' & Hrun).
  destruct (whileLoop_failure_accounting _ _ _ _ _ _ _ Hrun)
    as (evs & Htr & Hone & Hbound & Hfc); [unfold MAX_RETRIES; lia|].
  exists m', evs. unfold MAX_RETRIES in Hbound.
  split; [exact Hrun|]. split; [exact Htr|].
  split; [lia|]. split; [lia|exact Hone].
Qed.

Lemma whileLoop_success fuel connection attempts delay (m : Machine W) r m' :
  whileLoop fuel connection attempts delay m = Some (r, m') ->
  exists evs,
    trace m' = trace m ++ evs /\
    ((successCount m' = successCount m /\
      lastSuccessSlot m' = lastSuccessSlot m) \/
     (successCount m' = js_incr (successCount m) /\
      consecutiveBlockhashErrors m' = 0 /\
      existsb isSuccess evs = true /\
      (1 <= sends evs)%nat)).
Proof.
  revert fuel connection attempts delay m r m'.
  apply (whileLoop_run_ind (fun _ _ m m' =>
    exists evs,
      trace m' = trace m ++ evs /\
      ((successCount m' = successCount m /\
        lastSuccessSlot m' = lastSuccessSlot m) \/
       (successCount m' = js_incr (successCount m) /\
        consecutiveBlockhashErrors m' = 0 /\
        existsb isSuccess evs = true /\
        (1 <= sends evs)%nat)))).
  - intros _ _ m _. exists []. rewrite app_nil_r. auto.
  - intros connection attempts _ m x m1 _ Htry.
    destruct (tryBlock_run _ _ _ _ _ Htry) as (evs & Htr & _).
    destruct (tryBlock_metrics _ _ _ _ _ _ Htry Htr)
      as (_ & _ & [Hsame|(Hsc & Hc & _ & Hs & Hsend)]).
    + exists evs. auto.
    + exists evs. split; [exact Htr|]. right. unfold sends. rewrite Hsend. auto.
  - intros connection attempts delay m e m1 connection' m2 m' _ Htry Hcatch
      (evs3 & Htr3 & H3).
    destruct (tryBlock_run _ _ _ _ _ Htry)
      as (evs1 & Htr1 & _ & _ & _ & _ & _ & _ & Hsc1 & _ & Hls1 & _).
    destruct (catchBlock_spec e connection attempts delay m1)
      as (c2 & m2' & Hcatch' & Hsc2 & _ & Hls2 & _ & evs2 & Htr2 & _).
    rewrite Hcatch in Hcatch'. injection Hcatch' as _ <-.
    exists (evs1 ++ evs2 ++ evs3).
    split; [rewrite Htr3, Htr2, Htr1, <- !app_assoc; reflexivity|].
    rewrite Hsc2, Hsc1, Hls2, Hls1 in H3.
    destruct H3 as [Hsame|(Hsc & Hc & Hs & Hsend)]; [left; exact Hsame|].
    right. unfold sends in *.
    rewrite !existsb_app, !calls_app, Hs, !orb_true_r.
    repeat split; try assumption; lia.
Qed.

(** X6.  The success metrics move together.  Over an invocation
    [successCount] either stays, and then [lastSuccessSlot] stays too, or
    grows by one [++]; in the latter case a transaction was sent, a success
    was logged and [consecutiveBlockhashErrors] is zero at the end.  An
    invocation never records more than one success. *)
Theorem success_metrics_move_together connection (m : Machine W) :
  exists m' evs,
    executeCrankInstruction connection m = Some (Normal tt, m') /\
    trace m' = trace m ++ evs /\
    ((successCount m' = successCount m /\
      lastSuccessSlot m' = lastSuccessSlot m) \/
     (successCount m' = js_incr (successCount m) /\
      consecutiveBlockhashErrors m' = 0 /\
      existsb isSuccess evs = true /\
      (1 <= sends evs)%nat)).
Proof.
  destruct (executeCrankInstruction_total connection m) as (m' & Hrun).
  destruct (whileLoop_success _ _ _ _ _ _ _ Hrun) as (evs & Htr & H).
  exists m', evs. auto.
Qed.

Lemma whileLoop_pauses fuel connection attempts delay (m : Machine W) r m' :
  whileLoop fuel connection attempts delay m = Some (r, m') ->
  exists evs n,
    trace m' = trace m ++ evs /\
    penalties evs = repeat 30000 n /\
    3 * Z.of_nat n <=
      Z.min (Z.max (consecutiveBlockhashErrors m) 0) 2 + Z.max 0 (MAX_RETRIES - attempts).
Proof.
  revert fuel connection attempts delay m r m'.
  apply (whileLoop_run_ind (fun attempts _ m m' =>
    exists evs n,
      trace m' = trace m ++ evs /\
      penalties evs = repeat 30000 n /\
      3 * Z.of_nat n <=
        Z.min (Z.max (consecutiveBlockhashErrors m) 0) 2
        + Z.max 0 (MAX_RETRIES - attempts))).
  - intros attempts _ m _. exists [], O. rewrite app_nil_r. simpl.
    repeat split; lia.
  - intros connection attempts _ m x m1 _ Htry.
    destruct (tryBlock_run _ _ _ _ _ Htry) as (evs & Htr & _ & Hp & _).
    exists evs, O. simpl. repeat split; try assumption; lia.
  - intros connection attempts delay m e m1 connection' m2 m' Hlt Htry Hcatch
      (evs3 & n3 & Htr3 & Hp3 & Hn3).
    destruct (tryBlock_run _ _ _ _ _ Htry)
      as (evs1 & Htr1 & _ & Hp1 & _ & _ & _ & _ & _ & _ & _ & Hc1).
    destruct (catchBlock_spec e connection attempts delay m1)
      as (c2 & m2' & Hcatch' & _ & _ & _ & Hc2 & evs2 & Htr2 & _ & _ & _ & _
          & _ & Hp2 & _).
    rewrite Hcatch in Hcatch'. injection Hcatch' as _ <-.
    rewrite (js_incr_attempts _ Hlt) in *.
    rewrite Hc1 in *.
    assert (Hinc : js_incr (consecutiveBlockhashErrors m) = consecutiveBlockhashErrors m
                   \/ js_incr (consecutiveBlockhashErrors m)
                      = consecutiveBlockhashErrors m + 1)
      by (unfold js_incr; destruct (_ <? _); auto).
    assert (Hbig : js_incr (consecutiveBlockhashErrors m) = consecutiveBlockhashErrors m ->
                   3 <= consecutiveBlockhashErrors m)
      by (unfold js_incr, MAX_EXACT; destruct (Z.ltb_spec (consecutiveBlockhashErrors m)
            9007199254740992); lia).
    destruct (isBlockhashExpiry (message e));
      [destruct (Z.geb_spec (js_incr (consecutiveBlockhashErrors m)) 3) as [Hge|Hlow]|];
      simpl in Hp2.
    + exists (evs1 ++ evs2 ++ evs3), (S n3).
      split; [rewrite Htr3, Htr2, Htr1, <- !app_assoc; reflexivity|].
      rewrite !penalties_app, Hp1, Hp2, Hp3. split; [reflexivity|]. lia.
    + exists (evs1 ++ evs2 ++ evs3), n3.
      split; [rewrite Htr3, Htr2, Htr1, <- !app_assoc; reflexivity|].
      rewrite !penalties_app, Hp1, Hp2, Hp3. split; [reflexivity|]. lia.
    + exists (evs1 ++ evs2 ++ evs3), n3.
      split; [rewrite Htr3, Htr2, Htr1, <- !app_assoc; reflexivity|].
      rewrite !penalties_app, Hp1, Hp2, Hp3. split; [reflexivity|]. lia.
Qed.

(** X7.  The time an invocation spends waiting is bounded.  Whatever the
    ledger answers and whatever the counter was, an invocation makes at
    most two penalty pauses, each of 30000 ms, and at most one when it
    starts with [consecutiveBlockhashErrors] at zero or below; with the
    backoff waits it sleeps 75000 ms at most in total. *)
Theorem invocation_wait_is_bounded connection (m : Machine W) :
  exists m' evs n,
    executeCrankInstruction connection m = Some (Normal tt, m') /\
    trace m' = trace m ++ evs /\
    penalties evs = repeat 30000 n /\
    (n <= 2)%nat /\
    (consecutiveBlockhashErrors m <= 0 -> (n <= 1)%nat) /\
    0 <= totalWait evs <= 75000.
Proof.
  destruct (executeCrankInstruction_total connection m) as (m' & Hrun).
  destruct (whileLoop_pauses _ _ _ _ _ _ _ Hrun) as (evs & n & Htr & Hp & Hn).
  destruct (whileLoop_backoffs _ _ _ _ _ _ _ Hrun)
    as (evs' & k & Htr' & Hb & _ & _ & Hk).
  rewrite Htr in Htr'. apply app_inv_head in Htr'. subst evs'.
  assert (Hlt : 0 < MAX_RETRIES) by (unfold MAX_RETRIES; lia).
  specialize (Hk Hlt). unfold MAX_RETRIES in *.
  exists m', evs, n.
  split; [exact Hrun|]. split; [exact Htr|]. split; [exact Hp|].
  split; [lia|]. split; [lia|].
  unfold totalWait. rewrite Hb, Hp.
  assert (Hn2 : (n <= 2)%nat) by lia.
  assert (Hk4 : (k <= 4)%nat) by lia.
  clear - Hn2 Hk4.
  destruct n as [|[|[|n]]]; [| | |lia];
    destruct k as [|[|[|[|[|k]]]]]; try lia; simpl; lia.
Qed.

End ExecutorFacts.

(** * The expiry class of a failure message *)

Lemma prefix_append needle : forall hay,
  String.prefix needle hay = true <-> exists post, hay = (needle ++ post)%string.
Proof.
  induction needle as [|a needle IH]; intros hay.
  - split; [intros _; exists hay; reflexivity|].
    intros _. destruct hay; reflexivity.
  - destruct hay as [|b hay]; simpl.
    + split; [discriminate | intros (post & H); discriminate H].
    + destruct (Ascii.ascii_dec a b) as [->|Hne].
      * rewrite IH. split; intros (post & H); exists post.
        -- rewrite H. reflexivity.
        -- injection H as H. exact H.
      * split; [discriminate|]. intros (post & H). injection H as H _.
        congruence.
Qed.

Lemma includes_unfold hay needle :
  includes hay needle =
    if String.prefix needle hay then true
    else match hay with
         | EmptyString => false
         | String _ rest => includes rest needle
         end.
Proof. destruct hay; reflexivity. Qed.

(** [includes] is the substring test of [String.prototype.includes]. *)
Lemma includes_substring hay needle :
  includes hay needle = true <->
  exists pre post, hay = (pre ++ needle ++ post)%string.
Proof.
  split.
  - induction hay as [|c hay IH]; rewrite includes_unfold;
      destruct (String.prefix needle _) eqn:Hp.
    + intros _. apply prefix_append in Hp. destruct Hp as (post & Hp).
      exists ""%string, post. exact Hp.
    + intros H. discriminate H.
    + intros _. apply prefix_append in Hp. destruct Hp as (post & Hp).
      exists ""%string, post. exact Hp.
    + intros H. destruct (IH H) as (pre & post & ->).
      exists (String c pre), post. reflexivity.
  - intros (pre & post & ->). induction pre as [|c pre IH];
      rewrite includes_unfold.
    + replace (String.prefix needle ("" ++ needle ++ post)) with true; [reflexivity|].
      symmetry. apply prefix_append. exists post. reflexivity.
    + destruct (String.prefix needle _); [reflexivity|]. exact IH.
Qed.

(** X8.  The classification of line 163 is a case-sensitive substring test:
    a failure is in the expiry class exactly when its message contains
    [BlockhashNotFound] or [block height exceeded] somewhere, whatever
    surrounds it.  The empty message, and a message that spells the marker
    differently, are of the other class. *)
Theorem expiry_class_is_substring_match (msg : string) :
  (isBlockhashExpiry msg = true <->
   (exists pre post, msg = (pre ++ "BlockhashNotFound" ++ post)%string) \/
   (exists pre post, msg = (pre ++ "block height exceeded" ++ post)%string)) /\
  isBlockhashExpiry "" = false /\
  isBlockhashExpiry "Blockhash not found" = false /\
  isBlockhashExpiry "blockhashnotfound" = false.
Proof.
  split; [|repeat split].
  unfold isBlockhashExpiry. rewrite orb_true_iff, !includes_substring.
  reflexivity.
Qed.

(** * The freshness check and the scheduler loop *)

Definition sameEndpoint (a b : Endpoint) : bool :=
  match a, b with
  | PRIMARY_RPC_URL, PRIMARY_RPC_URL | FALLBACK_RPC_URL, FALLBACK_RPC_URL => true
  | _, _ => false
  end.

(** The reads of the scheduler in an entry go to [connection]. *)
Definition pollsOn (connection : Connection) (e : LoopEvent) : bool :=
  match e with
  | VGetSlot c | VGetAccountInfo c _ => sameEndpoint connection c
  | _ => true
  end.

Lemma intervals_app l1 l2 : intervals (l1 ++ l2) = (intervals l1 + intervals l2)%nat.
Proof.
  induction l1 as [|e l1 IH]; simpl; [reflexivity|].
  destruct e; simpl; rewrite ?IH; reflexivity.
Qed.

Lemma staleAnnouncements_app l1 l2 :
  staleAnnouncements (l1 ++ l2) = (staleAnnouncements l1 + staleAnnouncements l2)%nat.
Proof.
  induction l1 as [|e l1 IH]; simpl; [reflexivity|].
  destruct e as [l| | | |]; try exact IH.
  destruct l; simpl; rewrite ?IH; reflexivity.
Qed.

Lemma loopErrors_app l1 l2 : loopErrors (l1 ++ l2) = (loopErrors l1 + loopErrors l2)%nat.
Proof.
  induction l1 as [|e l1 IH]; simpl; [reflexivity|].
  destruct e as [l| | | |]; try exact IH.
  destruct l; simpl; rewrite ?IH; reflexivity.
Qed.

Lemma sameEndpoint_refl c : sameEndpoint c c = true.
Proof. destruct c; reflexivity. Qed.

(** [Promise.all] gives the three values when the three calls answer, and
    otherwise rejects with the error of one of the rejected calls. *)
Lemma promiseAll3_spec {A B C} first (c1 : Completion A) (c2 : Completion B)
    (c3 : Completion C) :
  match c1, c2, c3 with
  | Normal a, Normal b, Normal c => promiseAll3 first c1 c2 c3 = Normal (a, b, c)
  | _, _, _ =>
      exists e, promiseAll3 first c1 c2 c3 = Throw e /\ In e (rejections c1 c2 c3)
  end.
Proof.
  destruct c1, c2, c3; unfold promiseAll3; cbn [rejections app];
    try reflexivity;
    (eexists; split; [reflexivity|]);
    apply nth_In; apply Nat.mod_upper_bound; discriminate.
Qed.

Section SchedulerFacts.

Context {W : Type} {ledger : LedgerClient W} {reader : SlabReader W}.
Variable interval : Z.

Lemma whileLoop_failure_monotone fuel connection attempts delay (m : Machine W) r m' :
  whileLoop fuel connection attempts delay m = Some (r, m') ->
  failureCount m <= failureCount m'.
Proof.
  revert fuel connection attempts delay m r m'.
  apply (whileLoop_run_ind (fun _ _ m m' => failureCount m <= failureCount m')).
  - intros; lia.
  - intros connection attempts _ m x m1 _ Htry.
    destruct (tryBlock_run _ _ _ _ _ Htry) as (evs & Htr & _).
    destruct (tryBlock_metrics _ _ _ _ _ _ Htry Htr) as (_ & [[-> _]|[-> _]] & _);
      [lia | apply js_incr_le].
  - intros connection attempts delay m e m1 connection' m2 m' _ Htry Hcatch IH.
    destruct (tryBlock_run _ _ _ _ _ Htry)
      as (evs1 & _ & _ & _ & _ & _ & _ & _ & _ & Hfc1 & _).
    destruct (catchBlock_spec e connection attempts delay m1)
      as (c2 & m2' & Hcatch' & _ & Hfc2 & _).
    rewrite Hcatch in Hcatch'. injection Hcatch' as _ <-.
    pose proof (js_incr_le (failureCount m1)). lia.
Qed.

(** What the scheduler can rely on from one invocation of the executor. *)
Lemma executeCrankInstruction_frame connection (m : Machine W) :
  exists m' evs,
    executeCrankInstruction connection m = Some (Normal tt, m') /\
    trace m' = trace m ++ evs /\
    (1 <= attemptsStarted evs <= 5)%nat /\
    successCount m <= successCount m' /\
    failureCount m <= failureCount m'.
Proof.
  destruct (executeCrankInstruction_total connection m) as (m' & Hrun).
  destruct (whileLoop_backoffs _ _ _ _ _ _ _ Hrun)
    as (evs & k & Htr & _ & Hs & _ & Hk).
  destruct (whileLoop_success _ _ _ _ _ _ _ Hrun) as (evs' & _ & Hsucc).
  pose proof (whileLoop_failure_monotone _ _ _ _ _ _ _ Hrun) as Hfail.
  assert (Hlt : 0 < MAX_RETRIES) by (unfold MAX_RETRIES; lia).
  specialize (Hs Hlt). specialize (Hk Hlt). unfold MAX_RETRIES in Hk.
  exists m', evs. repeat split; try assumption; try lia.
  pose proof (js_incr_le (successCount m)).
  destruct Hsucc as [[-> _]|[-> _]]; lia.
Qed.

(** X9.  [checkSlabFreshness] never throws and never reports fresh on a
    failure.  It starts the three reads, in order, whatever they answer,
    and touches no metric.  When the slot read answers and both accounts
    exist, it draws the verdict and reports the slot read and the slot five
    below it.  In every other case (a read throws, or an account is
    missing) it logs one error line and reports stale with both slots at
    zero, without drawing. *)
Theorem freshness_check_absorbs_every_failure connection (b : Bot W) :
  exists verdict b' tail,
    checkSlabFreshness connection b = (Normal verdict, b') /\
    journal b' =
      journal b ++ [ VGetSlot connection;
                     VGetAccountInfo connection ORACLE_ACCOUNT;
                     VGetAccountInfo connection PERCOLATOR_SLAB ] ++ tail /\
    machine b' = withWorld (world (machine b')) (machine b) /\
    (stale verdict = false -> tail = [VRandom]) /\
    let (r1, w1) := getSlot connection (world (machine b)) in
    let (r2, w2) := getAccountInfo connection ORACLE_ACCOUNT w1 in
    let (r3, w3) := getAccountInfo connection PERCOLATOR_SLAB w2 in
    match r1, r2, r3 with
    | Normal slot, Normal (Some _), Normal (Some _) =>
        tail = [VRandom] /\
        verdict = {| stale := fst (randomBelowFifth w3);
                     currentSlot := slot; oracleSlot := slot - 5 |} /\
        world (machine b') = snd (randomBelowFifth w3)
    | _, _, _ =>
        verdict = {| stale := true; currentSlot := 0; oracleSlot := 0 |} /\
        world (machine b') = w3 /\
        exists msg,
          tail = [VLog (LFreshnessError msg)] /\
          (msg = "Could not fetch required accounts." \/
           In msg (map message (rejections r1 r2 r3)))
    end.
Proof.
  unfold checkSlabFreshness, readSlab, ask, note, withWorld.
  destruct (getSlot connection (world (machine b))) as [r1 w1]. cbn -[promiseAll3].
  destruct (getAccountInfo connection ORACLE_ACCOUNT w1) as [r2 w2]. cbn -[promiseAll3].
  destruct (getAccountInfo connection PERCOLATOR_SLAB w2) as [r3 w3]. cbn -[promiseAll3].
  pose proof (promiseAll3_spec (firstToReject w3) r1 r2 r3) as Hall.
  destruct r1 as [slot|e1], r2 as [oracle|e2], r3 as [slab|e3];
    try (destruct Hall as (e & -> & Hin)); try rewrite Hall; cbn -[rejections].
  1: destruct oracle as [info1|], slab as [info2|];
       [destruct (randomBelowFifth w3) as [coin w4]| | |]; cbn -[rejections].
  all: try (destruct oracle as [info1|]); cbn -[rejections].
  all: do 3 eexists; (split; [reflexivity|]); cbn -[rejections];
    (split; [rewrite <- ?app_assoc; reflexivity|]);
    (split; [reflexivity|]);
    (split; [first [intros _; reflexivity | intros H; discriminate H]|]);
    repeat split;
    try (eexists; (split; [reflexivity|]);
         first [left; reflexivity | right; apply in_map; exact Hin]).
Qed.

(** What the loop can rely on from one freshness check. *)
Lemma checkSlabFreshness_run connection (b : Bot W) :
  exists verdict b' entries,
    checkSlabFreshness connection b = (Normal verdict, b') /\
    journal b' = journal b ++ entries /\
    machine b' = withWorld (world (machine b')) (machine b) /\
    intervals entries = O /\
    staleAnnouncements entries = O /\
    loopErrors entries = O /\
    forallb (pollsOn connection) entries = true.
Proof.
  unfold checkSlabFreshness, readSlab, ask, note, withWorld.
  destruct (getSlot connection (world (machine b))) as [r1 w1]. cbn -[promiseAll3].
  destruct (getAccountInfo connection ORACLE_ACCOUNT w1) as [r2 w2]. cbn -[promiseAll3].
  destruct (getAccountInfo connection PERCOLATOR_SLAB w2) as [r3 w3]. cbn -[promiseAll3].
  destruct (promiseAll3 (firstToReject w3) r1 r2 r3) as [[[slot [info1|]] [info2|]]|e];
    [destruct (randomBelowFifth w3) as [coin w4]| | | |]; cbn;
    do 3 eexists; (split; [reflexivity|]); cbn;
    (split; [rewrite <- ?app_assoc; reflexivity|]);
    cbn; rewrite ?sameEndpoint_refl; repeat split.
Qed.

(** One turn of the loop never throws and hands its own connection on.  It
    announces the slab stale at most once and then invokes the executor
    once; it ends with the interval wait. *)
Lemma loopIteration_run connection (b : Bot W) :
  exists b' entries evs,
    loopIteration interval connection b = Some (Normal connection, b') /\
    journal b' = journal b ++ entries ++ [VInterval interval] /\
    intervals entries = O /\
    loopErrors entries = O /\
    forallb (pollsOn connection) entries = true /\
    trace (machine b') = trace (machine b) ++ evs /\
    successCount (machine b) <= successCount (machine b') /\
    failureCount (machine b) <= failureCount (machine b') /\
    ((staleAnnouncements entries = O /\
      machine b' = withWorld (world (machine b')) (machine b) /\ evs = []) \/
     (staleAnnouncements entries = 1%nat /\
      (1 <= attemptsStarted evs <= 5)%nat)).
Proof.
  unfold loopIteration, pollAndCrank.
  destruct (checkSlabFreshness_run connection b)
    as (verdict & b1 & entries & -> & Hj & Hm & Hi & Hs & He & Hp).
  destruct (stale verdict).
  - destruct (executeCrankInstruction_frame connection
                (machine (note (VLog (LStale (currentSlot verdict) (oracleSlot verdict))) b1)))
      as (m' & evs & -> & Htr & Ha & Hsc & Hfc).
    cbn in Htr, Hsc, Hfc. rewrite Hm in Htr, Hsc, Hfc. cbn in Htr, Hsc, Hfc.
    eexists _, (entries ++ [VLog (LStale (currentSlot verdict) (oracleSlot verdict))]), evs.
    split; [reflexivity|]. cbn.
    split; [rewrite Hj, <- !app_assoc; reflexivity|].
    rewrite intervals_app, loopErrors_app, forallb_app, staleAnnouncements_app,
      Hi, He, Hp, Hs. cbn.
    repeat split; try assumption. right. split; [reflexivity | exact Ha].
  - eexists _, entries, []. split; [reflexivity|]. cbn.
    split; [rewrite Hj, <- !app_assoc; reflexivity|].
    rewrite app_nil_r, Hm. cbn.
    repeat split; try assumption; try lia. left. repeat split. exact Hs.
Qed.

(** X10.  One turn of the scheduler loop.  It never throws, so the handler
    of line 208 is not entered and the turn hands on the connection it was
    given.  It polls on that connection and ends with one interval wait.
    If it does not announce the slab stale it leaves the executor alone:
    no event is added to the trace and no metric changes.  If it does, it
    invokes the executor once, which starts between one and five
    attempts.  The metrics never decrease. *)
Theorem loop_turn_never_throws connection (b : Bot W) :
  exists b' entries evs,
    loopIteration interval connection b = Some (Normal connection, b') /\
    journal b' = journal b ++ entries ++ [VInterval interval] /\
    intervals entries = O /\
    loopErrors entries = O /\
    forallb (pollsOn connection) entries = true /\
    trace (machine b') = trace (machine b) ++ evs /\
    successCount (machine b) <= successCount (machine b') /\
    failureCount (machine b) <= failureCount (machine b') /\
    (staleAnnouncements entries <= 1)%nat /\
    (staleAnnouncements entries = O ->
       evs = [] /\
       successCount (machine b') = successCount (machine b) /\
       failureCount (machine b') = failureCount (machine b) /\
       lastSuccessSlot (machine b') = lastSuccessSlot (machine b) /\
       consecutiveBlockhashErrors (machine b') = consecutiveBlockhashErrors (machine b)) /\
    (staleAnnouncements entries = 1%nat -> (1 <= attemptsStarted evs <= 5)%nat).
Proof.
  destruct (loopIteration_run connection b)
    as (b' & entries & evs & Hrun & Hj & Hi & He & Hp & Htr & Hsc & Hfc & Hcases).
  exists b', entries, evs.
  do 8 (split; [assumption|]).
  destruct Hcases as [(Hs & Hm & ->)|(Hs & Ha)]; rewrite Hs.
  - split; [lia|]. split; [|intros H; discriminate H].
    intros _. rewrite Hm. cbn. repeat split.
  - split; [lia|]. split; [intros H; discriminate H|]. intros _. exact Ha.
Qed.

Lemma iterations_run : forall n connection (b : Bot W),
  exists b' entries evs,
    iterations interval n connection b = Some (Normal connection, b') /\
    journal b' = journal b ++ entries /\
    intervals entries = n /\
    loopErrors entries = O /\
    forallb (pollsOn connection) entries = true /\
    trace (machine b') = trace (machine b) ++ evs /\
    successCount (machine b) <= successCount (machine b') /\
    failureCount (machine b) <= failureCount (machine b') /\
    (staleAnnouncements entries <= n)%nat /\
    (staleAnnouncements entries <= attemptsStarted evs)%nat /\
    (attemptsStarted evs <= 5 * staleAnnouncements entries)%nat.
Proof.
  induction n as [|n IH]; intros connection b.
  - exists b, [], []. cbn. rewrite !app_nil_r. repeat split; lia.
  - destruct (loopIteration_run connection b)
      as (b1 & entries1 & evs1 & Hrun & Hj1 & Hi1 & He1 & Hp1 & Htr1 & Hsc1 & Hfc1 & Hc1).
    destruct (IH connection b1)
      as (b' & entries & evs & Hrest & Hj & Hi & He & Hp & Htr & Hsc & Hfc & Hs & Hlo & Hhi).
    exists b', (entries1 ++ [VInterval interval] ++ entries), (evs1 ++ evs).
    cbn [iterations]. rewrite Hrun.
    split; [exact Hrest|].
    split; [rewrite Hj, Hj1, <- !app_assoc; reflexivity|].
    split; [rewrite !intervals_app, Hi1, Hi; reflexivity|].
    split; [rewrite !loopErrors_app, He1, He; reflexivity|].
    split; [rewrite !forallb_app, Hp1, Hp; reflexivity|].
    split; [rewrite Htr, Htr1, <- app_assoc; reflexivity|].
    split; [lia|]. split; [lia|].
    rewrite !staleAnnouncements_app, attemptsStarted_app. cbn [staleAnnouncements Nat.add].
    destruct Hc1 as [(Hs1 & _ & ->)|(Hs1 & Ha1)]; rewrite Hs1; cbn [attemptsStarted];
      repeat split; lia.
Qed.

(** X11.  The scheduler loop, up to the end of any number [n] of turns.  It
    never throws, so the fatal handler of line 217 is not reached from
    inside the loop.  The connection is chosen once, at start: the primary
    if its probe answers, the fallback otherwise; every poll of every turn
    goes to that connection, whatever connection the executor switched to
    in between.  After [n] turns there were exactly [n] interval waits, at
    most [n] invocations of the executor, between one and five attempts per
    invocation, and the metrics have not decreased. *)
Theorem loop_polls_on_startup_connection n (b : Bot W) :
  exists connection b' entries evs,
    loop interval n b = Some (Normal connection, b') /\
    match getSlot PRIMARY_RPC_URL (world (machine b)) with
    | (Normal _, _) => connection = PRIMARY_RPC_URL
    | (Throw _, _) => connection = FALLBACK_RPC_URL
    end /\
    journal b' = journal b ++ [VLog LStarting; VLog LPrimaryRpc] ++ entries /\
    intervals entries = n /\
    loopErrors entries = O /\
    forallb (pollsOn connection) entries = true /\
    trace (machine b') = trace (machine b) ++ evs /\
    (staleAnnouncements entries <= n)%nat /\
    (staleAnnouncements entries <= attemptsStarted evs)%nat /\
    (attemptsStarted evs <= 5 * staleAnnouncements entries)%nat /\
    successCount (machine b) <= successCount (machine b') /\
    failureCount (machine b) <= failureCount (machine b').
Proof.
  unfold loop, note. cbn [machine journal].
  assert (Hprobe : exists c m1 evs0,
    getConnectionWithFailover (machine b) = (Normal c, m1) /\
    trace m1 = trace (machine b) ++ evs0 /\
    attemptsStarted evs0 = O /\
    successCount m1 = successCount (machine b) /\
    failureCount m1 = failureCount (machine b) /\
    match getSlot PRIMARY_RPC_URL (world (machine b)) with
    | (Normal _, _) => c = PRIMARY_RPC_URL
    | (Throw _, _) => c = FALLBACK_RPC_URL
    end).
  { unfold_bot. simpl.
    destruct (getSlot PRIMARY_RPC_URL (world (machine b))) as [[slot|e] w'];
      simpl; do 3 eexists; (split; [reflexivity|]); simpl;
      (split; [tidy_trace; reflexivity|]); repeat split. }
  destruct Hprobe as (c & m1 & evs0 & -> & Htr0 & Ha0 & Hsc0 & Hfc0 & Hc).
  destruct (iterations_run n c (Build_Bot m1 ((journal b ++ [VLog LStarting]) ++ [VLog LPrimaryRpc])))
    as (b' & entries & evs & Hrun & Hj & Hi & He & Hp & Htr & Hsc & Hfc & Hs & Hlo & Hhi).
  cbn [machine journal] in *.
  exists c, b', entries, (evs0 ++ evs).
  split; [exact Hrun|]. split; [exact Hc|].
  split; [rewrite Hj, <- !app_assoc; reflexivity|].
  do 3 (split; [assumption|]).
  split; [rewrite Htr, Htr0, <- app_assoc; reflexivity|].
  rewrite attemptsStarted_app, Ha0. cbn [Nat.add].
  repeat split; try assumption; lia.
Qed.

End SchedulerFacts.

(** * Further runs on the scripted ledger *)

(** Fee estimate 1000, clean simulation, submission accepted, slot 1000. *)
Definition acceptedAtOnce : Script :=
  [ RAnchor anchor1; RFee (Some 1000); RSimulation None;
    RSignature "5VERv8"; RSlot 1000 ].

(** A submission is accepted but the slot read after it fails; the next
    attempt submits again and is recorded. *)
Definition acceptedTwice : Script :=
  [ RAnchor anchor1; RFee (Some 1000); RSimulation None;
    RSignature "5VERv8"; RThrow "fetch failed";
    RSlot 7;
    RAnchor anchor1; RFee (Some 1000); RSimulation None;
    RSignature "3kQzXw"; RSlot 1001 ].

(** X3 at the first attempt of [acceptedAtOnce]: [successCount] 1,
    [failureCount] 0, [lastSuccessSlot] 1000. *)
Lemma accepted_submission_witness :
  0 < MAX_RETRIES /\
  successCount (freshMachine acceptedAtOnce) < MAX_EXACT /\
  exceedsCeiling (Some 1000) = false /\
  truthy None = false /\
  exists m',
    executeCrankInstruction PRIMARY_RPC_URL (freshMachine acceptedAtOnce)
      = Some (Normal tt, m') /\
    successCount m' = 1 /\
    failureCount m' = 0 /\
    lastSuccessSlot m' = 1000 /\
    consecutiveBlockhashErrors m' = 0 /\
    sends (trace m') = 1%nat.
Proof.
  assert (H1 : 0 < MAX_RETRIES) by reflexivity.
  assert (H2 : successCount (freshMachine acceptedAtOnce) < MAX_EXACT) by reflexivity.
  split; [exact H1|]. split; [exact H2|].
  split; [reflexivity|]. split; [reflexivity|].
  destruct (accepted_submission_records_success (ledger := scriptedLedger)
              5 PRIMARY_RPC_URL 0 1000 (freshMachine acceptedAtOnce)
              anchor1
              [RFee (Some 1000); RSimulation None; RSignature "5VERv8"; RSlot 1000]
              (Some 1000) [RSimulation None; RSignature "5VERv8"; RSlot 1000]
              None [RSignature "5VERv8"; RSlot 1000]
              "5VERv8" [RSlot 1000] 1000 []
              H1 H2 eq_refl eq_refl eq_refl eq_refl eq_refl eq_refl eq_refl)
    as (m' & evs & Hrun & Htr & Hevs & Hsends & _ & Hsc & Hls & Hc & Hfc & _).
  exists m'. split; [unfold executeCrankInstruction; exact Hrun|].
  change (trace (freshMachine acceptedAtOnce) ++ evs) with evs in Htr.
  rewrite Htr. repeat split; assumption.
Defined.

(** X4 on a run that submits twice: the first accepted submission is
    counted as a failure because the slot read fails, and the invocation
    ends with two transactions sent, one success and one failure. *)
Lemma duplicate_submission_witness :
  0 + 1 < MAX_RETRIES /\
  failureCount (freshMachine acceptedTwice) < MAX_EXACT /\
  (exists connection' m2 evs,
     whileLoop 6 PRIMARY_RPC_URL 0 1000 (freshMachine acceptedTwice) =
       whileLoop 5 connection' 1 2000 m2 /\
     sends evs = 1%nat /\
     trace m2 = evs /\
     successCount m2 = 0 /\
     failureCount m2 = 1) /\
  exists m',
    executeCrankInstruction PRIMARY_RPC_URL (freshMachine acceptedTwice)
      = Some (Normal tt, m') /\
    sends (trace m') = 2%nat /\
    successCount m' = 1 /\
    failureCount m' = 1 /\
    lastSuccessSlot m' = 1001.
Proof.
  assert (H1 : 0 + 1 < MAX_RETRIES) by reflexivity.
  assert (H2 : failureCount (freshMachine acceptedTwice) < MAX_EXACT) by reflexivity.
  split; [exact H1|]. split; [exact H2|]. split.
  - destruct (slot_read_failure_after_submission_is_retried (ledger := scriptedLedger)
                5 PRIMARY_RPC_URL 0 1000 (freshMachine acceptedTwice)
                anchor1
                (tl acceptedTwice) (Some 1000) (tl (tl acceptedTwice))
                None (tl (tl (tl acceptedTwice)))
                "5VERv8" (tl (tl (tl (tl acceptedTwice))))
                {| message := "fetch failed" |} (tl (tl (tl (tl (tl acceptedTwice)))))
                H1 H2 eq_refl eq_refl eq_refl eq_refl eq_refl eq_refl eq_refl)
      as (c' & m2 & evs & Hloop & Htr & Hsends & _ & _ & _ & Hsc & _ & Hfc).
    exists c', m2, evs. repeat split; assumption.
  - evaluate_run. eexists. split; [reflexivity|]. repeat split.
Defined.

(** X5 on the run whose first attempt fails at the anchor fetch and whose
    second attempt is aborted by the simulation: one caught failure, one
    abort, [failureCount] from 0 to 2. *)
Lemma failureCount_accounting_witness :
  failureCount (freshMachine anchorFailureThenRevert) + 5 <= MAX_EXACT /\
  exists m',
    executeCrankInstruction PRIMARY_RPC_URL (freshMachine anchorFailureThenRevert)
      = Some (Normal tt, m') /\
    caughtFailures (trace m') = 1%nat /\
    simulationAborts (trace m') = 1%nat /\
    failureCount m' = 0 + Z.of_nat (caughtFailures (trace m'))
                      + Z.of_nat (simulationAborts (trace m')) /\
    failureCount m' = 2.
Proof.
  assert (Hsafe : failureCount (freshMachine anchorFailureThenRevert) + 5 <= MAX_EXACT)
    by (unfold MAX_EXACT; simpl; lia).
  split; [exact Hsafe|].
  destruct (failureCount_counts_caught_and_aborted (ledger := scriptedLedger)
              PRIMARY_RPC_URL (freshMachine anchorFailureThenRevert) Hsafe)
    as (m' & evs & Hrun & Htr & Hfc & _).
  exists m'. split; [exact Hrun|].
  change (trace (freshMachine anchorFailureThenRevert) ++ evs) with evs in Htr.
  rewrite <- Htr in Hfc.
  assert (Hm' : Some (Normal tt, m') =
                executeCrankInstruction PRIMARY_RPC_URL
                  (freshMachine anchorFailureThenRevert))
    by (symmetry; exact Hrun).
  vm_compute in Hm'. injection Hm' as Hm'.
  split; [rewrite Hm'; reflexivity|]. split; [rewrite Hm'; reflexivity|].
  split; [exact Hfc|].
  rewrite Hm'. reflexivity.
Defined.

(** Two turns of the loop on a scripted world.  The first turn finds the
    slab stale at slot 1000 and cranks at once.  In the second turn the slab
    account is missing: the check reports stale with slots at zero and the
    executor is invoked on a ledger that no longer answers, using up its
    five attempts.  The loop does not throw and keeps the connection it
    started with. *)
Example two_turns_of_the_loop :
  let w :=
    {| ledgerScript :=
         [ RSlot 100; RSlot 1000; RAnchor anchor1; RFee (Some 1000);
           RSimulation None; RSignature "5VERv8"; RSlot 1000; RSlot 1001 ];
       accountAnswers :=
         [ Normal (Some {| data := [1; 2; 3] |});
           Normal (Some {| data := [4; 5; 6] |});
           Normal (Some {| data := [1; 2; 3] |});
           Normal None ];
       draws := [true] |} in
  exists b',
    loop 5000 2 (freshBot w) = Some (Normal PRIMARY_RPC_URL, b') /\
    journal b' =
      [ VLog LStarting; VLog LPrimaryRpc;
        VGetSlot PRIMARY_RPC_URL;
        VGetAccountInfo PRIMARY_RPC_URL ORACLE_ACCOUNT;
        VGetAccountInfo PRIMARY_RPC_URL PERCOLATOR_SLAB;
        VRandom; VLog (LStale 1000 995); VInterval 5000;
        VGetSlot PRIMARY_RPC_URL;
        VGetAccountInfo PRIMARY_RPC_URL ORACLE_ACCOUNT;
        VGetAccountInfo PRIMARY_RPC_URL PERCOLATOR_SLAB;
        VLog (LFreshnessError "Could not fetch required accounts.");
        VLog (LStale 0 0); VInterval 5000 ] /\
    successCount (machine b') = 1 /\
    failureCount (machine b') = 5 /\
    lastSuccessSlot (machine b') = 1000 /\
    attemptsStarted (trace (machine b')) = 6%nat.
Proof.
  intros w.
  remember (loop 5000 2 (freshBot w)) as run eqn:Hrun.
  vm_compute in Hrun. subst run.
  eexists. split; [reflexivity|]. repeat split.
Qed.

(** A turn that finds the slab fresh leaves the executor alone. *)
Example fresh_slab_is_left_alone :
  let w :=
    {| ledgerScript := [RSlot 1000];
       accountAnswers :=
         [ Normal (Some {| data := [1; 2; 3] |});
           Normal (Some {| data := [4; 5; 6] |}) ];
       draws := [false] |} in
  exists b',
    loopIteration 5000 PRIMARY_RPC_URL (freshBot w)
      = Some (Normal PRIMARY_RPC_URL, b') /\
    journal b' =
      [ VGetSlot PRIMARY_RPC_URL;
        VGetAccountInfo PRIMARY_RPC_URL ORACLE_ACCOUNT;
        VGetAccountInfo PRIMARY_RPC_URL PERCOLATOR_SLAB;
        VRandom; VInterval 5000 ] /\
    trace (machine b') = [] /\
    successCount (machine b') = 0 /\
    failureCount (machine b') = 0.
Proof.
  intros w.
  remember (loopIteration 5000 PRIMARY_RPC_URL (freshBot w)) as run eqn:Hrun.
  vm_compute in Hrun. subst run.
  eexists. split; [reflexivity|]. repeat split.
Qed.

(** A second anchor, and a run of two attempts: the first submission is
    refused because its blockhash expired, the second attempt fetches
    [anchor2] and is accepted. *)
Definition anchor2 : BlockhashWithExpiry :=
  {| blockhash := "9xQeWvG816bUx9EPjHmaT23yvVM2ZWbrrpZb9PusVFin";
     lastValidBlockHeight := 250000450 |}.

Definition expiredThenAccepted : Script :=
  [ RAnchor anchor1; RFee (Some 1000); RSimulation None;
    RThrow "BlockhashNotFound";
    RSlot 7;
    RAnchor anchor2; RFee (Some 1000); RSimulation None;
    RSignature "5VERv8"; RSlot 1001 ].

(** X1 on [expiredThenAccepted]: the endpoints receive the transaction of
    the first attempt three times with [anchor1], then the transaction of
    the second attempt three times with [anchor2]. *)
Lemma fresh_anchor_witness :
  exists m' seen,
    executeCrankInstruction (ledger := recordingLedger scriptedLedger)
        PRIMARY_RPC_URL (recording [] (freshMachine expiredThenAccepted))
      = Some (Normal tt, recording seen m') /\
    seen = [ OAnchor (Some anchor1);
             OReceived CGetFeeForMessage (signedTx anchor1) true;
             OReceived CSimulateTransaction (signedTx anchor1) true;
             OReceived CSendRawTransaction (signedTx anchor1) false;
             OAnchor (Some anchor2);
             OReceived CGetFeeForMessage (signedTx anchor2) true;
             OReceived CSimulateTransaction (signedTx anchor2) true;
             OReceived CSendRawTransaction (signedTx anchor2) true ] /\
    anchorsFresh None seen = true /\
    fetches seen = 2%nat /\
    attemptsStarted (trace m') = 2%nat /\
    sends (trace m') = 2%nat /\
    successCount m' = 1.
Proof.
  destruct (fresh_anchor_every_attempt (ledger := scriptedLedger)
              PRIMARY_RPC_URL (freshMachine expiredThenAccepted) [])
    as (m' & evs & seen & Hrun & Hrec & Htr & Hfresh & Hfetch & _).
  exists m', seen. split; [exact Hrec|].
  assert (Hm' : Some (Normal tt, m') =
                executeCrankInstruction PRIMARY_RPC_URL
                  (freshMachine expiredThenAccepted))
    by (symmetry; exact Hrun).
  vm_compute in Hm'. injection Hm' as Hm'. subst m'.
  assert (Hs : Some seen =
               option_map (fun rm => snd (world (snd rm)))
                 (executeCrankInstruction (ledger := recordingLedger scriptedLedger)
                    PRIMARY_RPC_URL (recording [] (freshMachine expiredThenAccepted))))
    by (rewrite Hrec; reflexivity).
  vm_compute in Hs. injection Hs as Hs.
  split; [exact Hs|].
  split; [exact Hfresh|].
  split; [rewrite Hs; reflexivity|].
  repeat split.
Defined.

(** Records the executor never leaves: the second attempt reuses the first
    anchor after fetching a new one; it reuses the first anchor without
    fetching, after the fee query threw; a transaction is passed unsigned;
    a transaction is passed after a fetch that threw; a transaction is
    submitted twice. *)
Example stale_anchor_is_not_fresh :
  anchorsFresh None
    [ OAnchor (Some anchor1);
      OReceived CGetFeeForMessage (signedTx anchor1) true;
      OAnchor (Some anchor2);
      OReceived CGetFeeForMessage (signedTx anchor1) true ] = false /\
  anchorsFresh None
    [ OAnchor (Some anchor1);
      OReceived CGetFeeForMessage (signedTx anchor1) false;
      OReceived CGetFeeForMessage (signedTx anchor1) true ] = false /\
  anchorsFresh None
    [ OAnchor (Some anchor1);
      OReceived CGetFeeForMessage (buildTx anchor1) true ] = false /\
  anchorsFresh None
    [ OAnchor (Some anchor1);
      OReceived CSendRawTransaction (signedTx anchor1) true;
      OAnchor None;
      OReceived CSendRawTransaction (signedTx anchor1) true ] = false /\
  anchorsFresh None
    [ OAnchor (Some anchor1);
      OReceived CSendRawTransaction (signedTx anchor1) true;
      OReceived CSendRawTransaction (signedTx anchor1) true ] = false.
Proof. repeat split. Qed.
